(** * wowapi: token lifecycle and request retry of [WowApi] (src/wowapi/api.py)

    A shallow embedding of the core of the client: the per-region token
    cache, the OAuth client-credentials exchange, the request executor with
    its 401 retry, and the two public call styles ([get_resource] and
    [get_data_resource]) together with the [get_item] endpoint method.

    Conventions of the embedding.
    - A [datetime] is its offset in microseconds from 0001-01-01 00:00, an
      integer; a [timedelta] is a number of microseconds.  The arithmetic
      on them is that of the integers: the OverflowError that Python
      raises outside the calendar range (years 1 to 9999) is not part of
      the embedding, and [representable] and [timedelta_representable]
      name the ranges where a statement depends on them.
    - The [filters] of a method are the dictionary its [**filters]
      receives.
    - Values parsed from JSON are the type [json]; JSON reals are left out
      (the OAuth contract fixes [expires_in] as an integer).
    - The HTTP session and the clock are the environment ([world]): the
      n-th call of [Session.get] and the n-th reading of the clock are
      answered by functions of n.  Every interaction is appended to the
      [trace] of the state, in program order.
    - Logging has no effect on the client and is left out. *)

From Stdlib Require Import ZArith Lia.
From stdpp Require Import gmap strings list pretty.

Local Open Scope string_scope.
Local Open Scope list_scope.
Local Open Scope Z_scope.

(** ** Python values *)

Local Set Warnings "-register-all".

Inductive json : Type :=
  | JNull
  | JBool (b : bool)
  | JInt (n : Z)
  | JStr (s : string)
  | JList (l : list json)
  | JObj (items : list (string * json)).

(** Positional arguments of a path template: the endpoint methods are
    called with numbers and names. *)
Inductive pyarg : Type :=
  | PInt (n : Z)
  | PStr (s : string).

(** [str(x)] *)
Definition py_str (a : pyarg) : string :=
  match a with
  | PInt n => pretty n
  | PStr s => s
  end.

Definition datetime := Z.
Definition timedelta := Z.

Definition microseconds_per_second : Z := 1000000.

(** [datetime.max], 9999-12-31 23:59:59.999999: day 3652059 of the
    calendar, less one microsecond. *)
Definition datetime_max : datetime :=
  3652059 * 86400 * microseconds_per_second - 1.

(** The datetimes Python can hold, from [datetime.min] to [datetime.max]. *)
Definition representable (t : datetime) : Prop := 0 <= t <= datetime_max.

(** The timedeltas Python can hold: at most 999999999 days either way. *)
Definition timedelta_representable (d : timedelta) : Prop :=
  - 999999999 * 86400 * microseconds_per_second <= d
  < (999999999 + 1) * 86400 * microseconds_per_second.

(** ** Exceptions *)

(** The text carried by an exception, by the format string that builds it. *)
Inductive message : Type :=
  | MsgExc (s : string)                            (* str(exc) *)
  | MsgOauthInvalidResponse (status : Z) (url : string)
      (* 'Invalid response - {0} for {1}' *)
  | MsgOauthInvalidJson (content url : string)
      (* 'Invalid Json in OAuth request: {0} for {1}' *)
  | MsgInvalidResponse (url : string) (status : Z)
      (* 'Invalid response - {0} - {1}' *)
  | MsgInvalidJson (content url : string).
      (* 'Invalid Json: {0} for {1}' *)

(** Modelled from the spec: the module [exceptions] that declares
    [WowApiException] and [WowApiOauthException] is imported by api.py and
    is not part of the sources at hand.  The spec describes them as two
    top-level error kinds, the authentication error being distinct from the
    request error; they are two constructors here.  The other constructors
    are the built-in exceptions the code can let escape. *)
Inductive exn : Type :=
  | WowApiException (m : message)
  | WowApiOauthException (m : message)
  | RequestException (s : string)
  | JSONDecodeError
  | KeyError (k : string)
  | TypeError
  | IndexError.

Definition is_oauth_error (e : exn) : bool :=
  match e with WowApiOauthException _ => true | _ => false end.

Definition is_request_error (e : exn) : bool :=
  match e with WowApiException _ => true | _ => false end.

(** ** The environment: HTTP session and clock *)

Record response : Type := Response {
  status_code : Z;
  content : string;
  (** what [response.json()] yields, [None] when it raises *)
  body_json : option json
}.

(** The outcome of one [Session.get]. *)
Inductive reply : Type :=
  | ConnFailure (s : string)      (* a RequestException is raised *)
  | Resp (r : response).

(** [Response.ok] of requests: no HTTPError from [raise_for_status], which
    raises on a status from 400 up to 599. *)
Definition ok (r : response) : bool :=
  negb ((400 <=? status_code r) && (status_code r <? 600)).

Record request : Type := Request {
  req_url : string;
  (** the [params] keyword argument, [None] when [get] is called without *)
  req_params : option (gmap string json)
}.

Inductive event : Type :=
  | EvNow (t : datetime)
  | EvGet (q : request) (r : reply).

Record world : Type := World {
  (** the n-th reading of the clock *)
  utcnow_at : nat -> datetime;
  (** the answer to the n-th [Session.get], which may depend on the request *)
  session_get_at : nat -> request -> reply
}.

(** ** The client object *)

Record token_record : Type := TokenRecord {
  token : json;
  expiration : datetime
}.

Record state : Type := State {
  _client_id : string;
  _client_secret : string;
  _access_tokens : gmap string token_record;
  trace : list event
}.

(** [WowApi.__init__] *)
Definition WowApi_init (client_id client_secret : string) : state :=
  {| _client_id := client_id;
     _client_secret := client_secret;
     _access_tokens := ∅;
     trace := [] |}.

Definition is_now (e : event) : bool :=
  match e with EvNow _ => true | EvGet _ _ => false end.

Definition is_get (e : event) : bool :=
  match e with EvNow _ => false | EvGet _ _ => true end.

Definition count_now (tr : list event) : nat := length (List.filter is_now tr).
Definition count_get (tr : list event) : nat := length (List.filter is_get tr).

Definition log (e : event) (s : state) : state :=
  {| _client_id := _client_id s;
     _client_secret := _client_secret s;
     _access_tokens := _access_tokens s;
     trace := trace s ++ [e] |}.

Definition store_token (region : string) (rec : token_record) (s : state) : state :=
  {| _client_id := _client_id s;
     _client_secret := _client_secret s;
     _access_tokens := <[region := rec]> (_access_tokens s);
     trace := trace s |}.

(** ** A state and exception monad *)

Inductive outcome (A : Type) : Type :=
  | Ret (a : A)
  | Raise (e : exn)
  | OutOfFuel.       (* the recursion budget of the embedding ran out *)

Arguments Ret {A} a.
Arguments Raise {A} e.
Arguments OutOfFuel {A}.

Definition M (A : Type) : Type := state -> outcome A * state.

Definition ret {A} (a : A) : M A := fun s => (Ret a, s).
Definition raise {A} (e : exn) : M A := fun s => (Raise e, s).

Definition bind {A B} (m : M A) (k : A -> M B) : M B :=
  fun s =>
    match m s with
    | (Ret a, s') => k a s'
    | (Raise e, s') => (Raise e, s')
    | (OutOfFuel, s') => (OutOfFuel, s')
    end.

(** [try: m  except: h] where the handler sees the exception and may
    decline it by raising it again. *)
Definition try_except {A} (m : M A) (h : exn -> M A) : M A :=
  fun s =>
    match m s with
    | (Raise e, s') => h e s'
    | r => r
    end.

Definition get_state : M state := fun s => (Ret s, s).

Declare Scope py_scope.
Delimit Scope py_scope with py.
Notation "x <- m ;; k" := (bind m (fun x => k))
  (at level 100, m at next level, right associativity) : py_scope.
Notation "m ;;; k" := (bind m (fun _ => k))
  (at level 100, right associativity) : py_scope.
Local Open Scope py_scope.

(** ** Primitive operations *)

(** [self._utcnow()] *)
Definition _utcnow (w : world) : M datetime :=
  fun s =>
    let t := utcnow_at w (count_now (trace s)) in
    (Ret t, log (EvNow t) s).

(** [self._session.get(url, **kwargs)] *)
Definition session_get (w : world) (q : request) : M response :=
  fun s =>
    let r := session_get_at w (count_get (trace s)) q in
    match r with
    | ConnFailure msg => (Raise (RequestException msg), log (EvGet q r) s)
    | Resp rsp => (Ret rsp, log (EvGet q r) s)
    end.

(** A computation without effect on the client: its value or the exception
    it raises. *)
Definition lift {A} (r : exn + A) : M A :=
  match r with
  | inl e => raise e
  | inr a => ret a
  end.

(** [response.json()] *)
Definition response_json (r : response) : exn + json :=
  match body_json r with
  | Some j => inr j
  | None => inl JSONDecodeError
  end.

Fixpoint assoc (k : string) (items : list (string * json)) : option json :=
  match items with
  | [] => None
  | (k', v) :: rest => if decide (k = k') then Some v else assoc k rest
  end.

(** [j[k]] for a string key [k]: only a dict can be subscripted by it. *)
Definition py_getitem (j : json) (k : string) : exn + json :=
  match j with
  | JObj items =>
      match assoc k items with
      | Some v => inr v
      | None => inl (KeyError k)
      end
  | _ => inl TypeError
  end.

(** [timedelta(seconds=v)]: integers, and booleans as the integers they
    are; every other value is rejected with a TypeError. *)
Definition timedelta_seconds (v : json) : exn + timedelta :=
  match v with
  | JInt n => inr (n * microseconds_per_second)
  | JBool b => inr (Z.b2z b * microseconds_per_second)
  | _ => inl TypeError
  end.

(** ** The OAuth exchange *)

Definition oauth_path (client_id client_secret : string) : string :=
  "/oauth/token?grant_type=client_credentials&client_id=" +:+ client_id
  +:+ "&client_secret=" +:+ client_secret.

Definition oauth_url (client_id client_secret region : string) : string :=
  let path := oauth_path client_id client_secret in
  let url := "https://" +:+ region +:+ ".battle.net" +:+ path in
  if decide (region = "cn") then "https://www.battlenet.com.cn" +:+ path
  else url.

Definition oauth_request (s : state) (region : string) : request :=
  {| req_url := oauth_url (_client_id s) (_client_secret s) region;
     req_params := None |}.

(** [WowApi._get_client_credentials] *)
Definition _get_client_credentials (w : world) (region : string) : M unit :=
  self <- get_state ;;
  let url := oauth_url (_client_id self) (_client_secret self) region in
  now <- _utcnow w ;;
  response <- try_except
      (session_get w {| req_url := url; req_params := None |})
      (fun exc =>
         match exc with
         | RequestException msg => raise (WowApiOauthException (MsgExc msg))
         | _ => raise exc
         end) ;;
  if negb (ok response) then
    raise (WowApiOauthException (MsgOauthInvalidResponse (status_code response) url))
  else
    json <- try_except (lift (response_json response))
      (fun _ => raise (WowApiOauthException
                         (MsgOauthInvalidJson (content response) url))) ;;
    tok <- lift (py_getitem json "access_token") ;;
    seconds <- lift (py_getitem json "expires_in") ;;
    delta <- lift (timedelta_seconds seconds) ;;
    let expiration := now + delta in
    fun s => (Ret tt, store_token region {| token := tok; expiration := expiration |} s).

(** ** The request executor *)

(** [WowApi._handle_request(url, region, params=params)].  The function
    calls itself after a 401; [fuel] bounds the depth of these nested
    calls, and [OutOfFuel] stands for a call that is still recursing when
    the budget is spent. *)
Fixpoint _handle_request (w : world) (fuel : nat) (url region : string)
    (params : gmap string json) : M json :=
  match fuel with
  | O => fun s => (OutOfFuel, s)
  | S fuel' =>
      response <- try_except
          (session_get w {| req_url := url; req_params := Some params |})
          (fun exc =>
             match exc with
             | RequestException msg => raise (WowApiException (MsgExc msg))
             | _ => raise exc
             end) ;;
      if negb (ok response) then
        if status_code response =? 401 then
          _get_client_credentials w region ;;;
          _handle_request w fuel' url region params
        else
          raise (WowApiException (MsgInvalidResponse url (status_code response)))
      else
        try_except (lift (response_json response))
          (fun _ => raise (WowApiException (MsgInvalidJson (content response) url)))
  end.

(** [WowApi.get_data_resource] *)
Definition get_data_resource (w : world) (fuel : nat) (url region : string) : M json :=
  self <- get_state ;;
  let params : gmap string json :=
    {[ "access_token" := default (JStr "") (token <$> _access_tokens self !! region) ]} in
  _handle_request w fuel url region params.

(** ** Path templates *)

(** A format string with positional replacement fields, by its pieces:
    ['wow/item/{0}'] is [[Lit "wow/item/"; Field 0]]. *)
Inductive segment : Type :=
  | Lit (s : string)
  | Field (i : nat).

Definition template := list segment.

(** [str.format] of a template on positional arguments: an index past the
    arguments is an IndexError. *)
Fixpoint py_format (tpl : template) (args : list pyarg) : exn + string :=
  match tpl with
  | [] => inr ""
  | Lit s :: rest =>
      match py_format rest args with
      | inr tail => inr (s +:+ tail)
      | inl e => inl e
      end
  | Field i :: rest =>
      match args !! i with
      | Some a =>
          match py_format rest args with
          | inr tail => inr (py_str a +:+ tail)
          | inl e => inl e
          end
      | None => inl IndexError
      end
  end.

(** The text of a format string, from its pieces (templates whose literal
    parts hold no brace). *)
Definition template_source (tpl : template) : string :=
  foldr (fun seg acc =>
           match seg with
           | Lit s => s +:+ acc
           | Field i => "{" +:+ pretty i +:+ "}" +:+ acc
           end) "" tpl.

(** ** The full resource path *)

Definition base_url (region : string) : string :=
  let base := region +:+ ".api.blizzard.com" in
  if decide (region = "cn") then "www.gateway.battlenet.com.cn" else base.

Definition resource_url (region path : string) : string :=
  "https://" +:+ base_url region +:+ "/" +:+ path.

Definition thirty_seconds : timedelta := 30 * microseconds_per_second.

(** Lines 119 to 130 of [get_resource]: fetch on first use, refresh when
    the token expires within thirty seconds. *)
Definition check_token (w : world) (region : string) : M unit :=
  self <- get_state ;;
  match _access_tokens self !! region with
  | None => _get_client_credentials w region
  | Some rec =>
      now <- _utcnow w ;;
      if expiration rec - thirty_seconds <=? now
      then _get_client_credentials w region
      else ret tt
  end.

(** [WowApi.get_resource(resource, region, *args, **filters)] *)
Definition get_resource (w : world) (fuel : nat) (resource : template)
    (region : string) (args : list pyarg) (filters : gmap string json) : M json :=
  path <- lift (py_format resource args) ;;
  let url := resource_url region path in
  check_token w region ;;;
  self <- get_state ;;
  match _access_tokens self !! region with
  | None => raise (KeyError region)
  | Some rec =>
      let filters' := <[ "access_token" := token rec ]> filters in
      _handle_request w fuel url region filters'
  end.

Definition resource_item : template := [Lit "wow/item/"; Field 0].

(** The call [self.get_resource(resource, region, *args, **filters)] that
    the endpoint methods make.  A filter named resource gives the parameter
    [resource] of [get_resource] a second value: Python raises a TypeError
    when it binds the arguments, before the body of [get_resource] runs. *)
Definition call_get_resource (w : world) (fuel : nat) (resource : template)
    (region : string) (args : list pyarg) (filters : gmap string json) : M json :=
  match filters !! "resource" with
  | Some _ => raise TypeError
  | None => get_resource w fuel resource region args filters
  end.

(** [WowApi.get_item(region, id, **filters)] *)
Definition get_item (w : world) (fuel : nat) (region : string) (id : pyarg)
    (filters : gmap string json) : M json :=
  call_get_resource w fuel resource_item region [id] filters.

(** ** Reading traces *)

(** The OAuth exchange calls [get] without parameters, the executor always
    with [params]. *)
Definition is_oauth_get (e : event) : bool :=
  match e with
  | EvGet q _ => match req_params q with None => true | Some _ => false end
  | EvNow _ => false
  end.

Definition is_resource_get (e : event) : bool :=
  match e with
  | EvGet q _ => match req_params q with None => false | Some _ => true end
  | EvNow _ => false
  end.

(** Number of OAuth exchanges and of resource requests in a trace. *)
Definition exchanges (tr : list event) : nat := length (List.filter is_oauth_get tr).
Definition dispatches (tr : list event) : nat := length (List.filter is_resource_get tr).

(** What a run from [s] to [s'] added to the trace. *)
Definition since (s s' : state) : list event := drop (length (trace s)) (trace s').


Definition resource_request (url : string) (params : gmap string json) : request :=
  {| req_url := url; req_params := Some params |}.

(** The exchange as a function of the clock reading and of the reply. *)
Definition exchange_outcome (url : string) (now : datetime) (r : reply)
    : exn + token_record :=
  match r with
  | ConnFailure msg => inl (WowApiOauthException (MsgExc msg))
  | Resp rsp =>
      if ok rsp then
        match body_json rsp with
        | None => inl (WowApiOauthException (MsgOauthInvalidJson (content rsp) url))
        | Some j =>
            match py_getitem j "access_token" with
            | inl e => inl e
            | inr tok =>
                match py_getitem j "expires_in" with
                | inl e => inl e
                | inr v =>
                    match timedelta_seconds v with
                    | inl e => inl e
                    | inr d => inr {| token := tok; expiration := now + d |}
                    end
                end
            end
        end
      else inl (WowApiOauthException (MsgOauthInvalidResponse (status_code rsp) url))
  end.

(** What the executor makes of a reply that is not a 401. *)
Definition final_outcome (url : string) (r : reply) : outcome json :=
  match r with
  | ConnFailure msg => Raise (WowApiException (MsgExc msg))
  | Resp rsp =>
      if ok rsp then
        match body_json rsp with
        | Some j => Ret j
        | None => Raise (WowApiException (MsgInvalidJson (content rsp) url))
        end
      else Raise (WowApiException (MsgInvalidResponse url (status_code rsp)))
  end.

Definition is_401 (r : reply) : bool :=
  match r with
  | Resp rsp => status_code rsp =? 401
  | ConnFailure _ => false
  end.

Definition is_success {A} (r : exn + A) : bool :=
  match r with inr _ => true | inl _ => false end.

(** [k] rounds of a 401 on the resource request [q], each followed by an
    exchange (request [oq]) that succeeds; [g] and [n] are the numbers of
    earlier [get] calls and clock readings. *)
Fixpoint chain_401 (w : world) (q oq : request) (g n k : nat) : bool :=
  match k with
  | O => true
  | S k' =>
      is_401 (session_get_at w g q)
      && is_success (exchange_outcome (req_url oq) (utcnow_at w n)
                       (session_get_at w (S g) oq))
      && chain_401 w q oq (S (S g)) (S n) k'
  end.

(** ** Scripted worlds, for the examples *)

(** A world that plays a list of clock readings and a list of replies, in
    order, whatever the requests are. *)
Definition scripted (times : list datetime) (replies : list reply) : world :=
  {| utcnow_at := fun n => nth n times 0;
     session_get_at := fun n _ => nth n replies (ConnFailure "connection refused") |}.

Definition reply_401 : reply :=
  Resp {| status_code := 401; content := "Unauthorized"; body_json := None |}.

Definition reply_token (tok : string) (expires_in : Z) : reply :=
  Resp {| status_code := 200; content := "";
          body_json := Some (JObj [("access_token", JStr tok);
                                   ("expires_in", JInt expires_in)]) |}.

Definition item_payload : json := JObj [("id", JInt 1234); ("name", JStr "Shield")].

Definition reply_item : reply :=
  Resp {| status_code := 200; content := ""; body_json := Some item_payload |}.

(** A client that holds the token OLD for region us, valid until 10^9 s. *)
Definition client_with_old_token : state :=
  store_token "us" {| token := JStr "OLD"; expiration := 1000000000 * microseconds_per_second |}
    (WowApi_init "id" "secret").

Definition item_url : string := "https://us.api.blizzard.com/wow/item/1234".

Definition old_params : gmap string json := {[ "access_token" := JStr "OLD" ]}.

(** 401, exchange, 401, exchange, 200. *)
Definition world_401_twice : world :=
  scripted [50; 60]
    [reply_401; reply_token "T1" 100; reply_401; reply_token "T2" 100; reply_item].

(** A server that rejects every resource request and grants every
    exchange. *)
Definition world_always_401 : world :=
  {| utcnow_at := fun n => Z.of_nat n;
     session_get_at := fun _ q =>
       match req_params q with
       | Some _ => reply_401
       | None => reply_token "T" 100
       end |}.

(** The bound on the retry as the specification words it: one forced
    refresh, one retried request (two dispatches in all), then a request
    error. *)
Definition retried_once_then_failed (s : state) (run : outcome json * state) : Prop :=
  exchanges (since s (snd run)) = 1%nat
  /\ dispatches (since s (snd run)) = 2%nat
  /\ exists e, fst run = Raise e /\ is_request_error e = true.

(** ** The life of a token record *)

(** The trace [tr] holds an exchange for [region] that produced the record
    [rec] as a whole: the clock is read, the OAuth request for the region
    is answered, and the answer gives the token and the expiration of
    [rec]. *)
Definition exchanged (cid sec region : string) (rec : token_record)
    (tr : list event) : Prop :=
  exists pre post t0 r,
    tr = pre ++ EvNow t0
               :: EvGet {| req_url := oauth_url cid sec region; req_params := None |} r
               :: post
    /\ exchange_outcome (oauth_url cid sec region) t0 r = inr rec.

(** A run from [s] to [s'] that added [new] to the trace: the credentials
    of the client are kept, and a token record is either left as it was or
    is the product of an exchange for its region within [new]. *)
Definition evolves (s s' : state) (new : list event) : Prop :=
  _client_id s' = _client_id s
  /\ _client_secret s' = _client_secret s
  /\ trace s' = trace s ++ new
  /\ forall region,
       _access_tokens s' !! region = _access_tokens s !! region
       \/ exists rec, _access_tokens s' !! region = Some rec
                      /\ exchanged (_client_id s) (_client_secret s) region rec new.

(** The operations of the client. *)
Inductive operation : Type :=
  | Call_get_client_credentials (region : string)
  | Call_handle_request (url region : string) (params : gmap string json)
  | Call_get_data_resource (url region : string)
  | Call_get_resource (resource : template) (region : string)
      (args : list pyarg) (filters : gmap string json)
  | Call_get_item (region : string) (id : pyarg) (filters : gmap string json).

(** The client after an operation, whatever its result. *)
Definition exec (w : world) (fuel : nat) (o : operation) (s : state) : state :=
  match o with
  | Call_get_client_credentials region => snd (_get_client_credentials w region s)
  | Call_handle_request url region params =>
      snd (_handle_request w fuel url region params s)
  | Call_get_data_resource url region => snd (get_data_resource w fuel url region s)
  | Call_get_resource resource region args filters =>
      snd (get_resource w fuel resource region args filters s)
  | Call_get_item region id filters => snd (get_item w fuel region id filters s)
  end.

(** ** Failing exchanges *)

(** The ways an exchange fails, in the words of the specification. *)
Inductive failure : Type :=
  | ConnectionFailure     (* the OAuth endpoint was not reached *)
  | BadStatus             (* non-success HTTP status *)
  | Unparseable           (* the body is not valid JSON *)
  | Incomplete.           (* the body lacks access_token or expires_in *)

Definition failure_of (r : reply) : option failure :=
  match r with
  | ConnFailure _ => Some ConnectionFailure
  | Resp rsp =>
      if ok rsp then
        match body_json rsp with
        | None => Some Unparseable
        | Some j =>
            if is_success (py_getitem j "access_token")
               && is_success (py_getitem j "expires_in")
            then None
            else Some Incomplete
        end
      else Some BadStatus
  end.

Definition is_incomplete (f : failure) : bool :=
  match f with Incomplete => true | _ => false end.

(** An OAuth endpoint that answers 200 with the body {"expires_in": 100}. *)
Definition reply_without_token : reply :=
  Resp {| status_code := 200; content := "";
          body_json := Some (JObj [("expires_in", JInt 100)]) |}.

Definition world_without_token : world := scripted [50] [reply_without_token].

Definition world_unreachable : world := scripted [50] [].

(** An OAuth endpoint that answers 200 with the body {"access_token": "T1"}. *)
Definition reply_without_expiry : reply :=
  Resp {| status_code := 200; content := "";
          body_json := Some (JObj [("access_token", JStr "T1")]) |}.

Definition world_without_expiry : world := scripted [50] [reply_without_expiry].

(** ** Hosts, in the words of the specification *)


Definition resource_host (region : string) : string :=
  if decide (region = "cn") then "www.gateway.battlenet.com.cn"
  else region +:+ ".api.blizzard.com".

(** The event is a clock reading or a [get] of one of the two requests. *)
Definition sent_as (oq rq : request) (e : event) : Prop :=
  match e with
  | EvGet q _ => q = oq \/ q = rq
  | EvNow _ => True
  end.

(** 401, exchange granting the token NEW, 200. *)
Definition world_401_then_200 : world :=
  scripted [50; 60] [reply_401; reply_token "NEW" 100; reply_item].


(** ** More endpoint methods *)

(** [WowApi.get_oauth_profile(region)] *)
Definition get_oauth_profile (w : world) (fuel : nat) (region : string) : M json :=
  get_resource w fuel [Lit "wow/user/characters"] region [] ∅.

(** [WowApi.get_bosses(region, **filters)] *)
Definition get_bosses (w : world) (fuel : nat) (region : string)
    (filters : gmap string json) : M json :=
  call_get_resource w fuel [Lit "wow/boss/"] region [] filters.

(** [WowApi.get_character_profile(region, realm, character_name, **filters)] *)
Definition get_character_profile (w : world) (fuel : nat) (region : string)
    (realm character_name : pyarg) (filters : gmap string json) : M json :=
  call_get_resource w fuel [Lit "wow/character/"; Field 0; Lit "/"; Field 1] region
    [realm; character_name] filters.

(** [WowApi.get_achievement_category(region, namespace, id, **filters)] *)
Definition get_achievement_category (w : world) (fuel : nat) (region : string)
    (namespace : json) (id : pyarg) (filters : gmap string json) : M json :=
  let filters := <["namespace" := namespace]> filters in
  call_get_resource w fuel [Lit "/data/wow/achievement-category/"; Field 0] region
    [id] filters.

(** [WowApi.get_guild_data(region, namespace, realm_slug, guild_slug, **filters)] *)
Definition get_guild_data (w : world) (fuel : nat) (region : string)
    (namespace : json) (realm_slug guild_slug : pyarg)
    (filters : gmap string json) : M json :=
  let filters := <["namespace" := namespace]> filters in
  let params := [realm_slug; guild_slug] in
  call_get_resource w fuel [Lit "data/wow/guild/"; Field 0; Lit "/"; Field 1] region
    params filters.

(** [WowApi.get_item_data(region, namespace, id, **filters)] *)
Definition get_item_data (w : world) (fuel : nat) (region : string)
    (namespace : json) (id : pyarg) (filters : gmap string json) : M json :=
  let filters := <["namespace" := namespace]> filters in
  call_get_resource w fuel [Lit "data/wow/item/"; Field 0] region [id] filters.

(** [WowApi.get_character_mythic_keystone_profile_season(region, realm_slug,
    character_name, namespace, season_id, **filters)] *)
Definition get_character_mythic_keystone_profile_season (w : world) (fuel : nat)
    (region : string) (realm_slug character_name : pyarg) (namespace : json)
    (season_id : pyarg) (filters : gmap string json) : M json :=
  let filters := <["namespace" := namespace]> filters in
  let resource := [Lit "profile/wow/character/"; Field 0; Lit "/"; Field 1;
                   Lit "/mythic-keystone-profile/season/"; Field 2] in
  let params := [realm_slug; character_name; season_id] in
  call_get_resource w fuel resource region params filters.

(** ** Reading results *)

(** Every replacement field of the template has an argument among [n]. *)
Definition fields_fit (tpl : template) (n : nat) : bool :=
  forallb (fun seg => match seg with
                      | Lit _ => true
                      | Field i => Nat.ltb i n
                      end) tpl.

(** The exceptions that leave the OAuth exchange. *)
Definition exchange_error (e : exn) : bool :=
  match e with
  | WowApiOauthException _ => true
  | KeyError k => bool_decide (k = "access_token") || bool_decide (k = "expires_in")
  | TypeError => true
  | _ => false
  end.

Definition is_index_error (e : exn) : bool :=
  match e with IndexError => true | _ => false end.

(** The exceptions of the session and of the decoding of a body. *)
Definition is_transport_error (e : exn) : bool :=
  match e with
  | RequestException _ => true
  | JSONDecodeError => true
  | _ => false
  end.

(** The exception an operation ends with, if it does. *)
Definition raised (w : world) (fuel : nat) (o : operation) (s : state) : option exn :=
  let of_outcome {A} (r : outcome A) :=
    match r with Raise e => Some e | _ => None end in
  match o with
  | Call_get_client_credentials region =>
      of_outcome (fst (_get_client_credentials w region s))
  | Call_handle_request url region params =>
      of_outcome (fst (_handle_request w fuel url region params s))
  | Call_get_data_resource url region =>
      of_outcome (fst (get_data_resource w fuel url region s))
  | Call_get_resource resource region args filters =>
      of_outcome (fst (get_resource w fuel resource region args filters s))
  | Call_get_item region id filters =>
      of_outcome (fst (get_item w fuel region id filters s))
  end.

(** The region an operation is called for. *)
Definition region_of (o : operation) : string :=
  match o with
  | Call_get_client_credentials region => region
  | Call_handle_request _ region _ => region
  | Call_get_data_resource _ region => region
  | Call_get_resource _ region _ _ => region
  | Call_get_item region _ _ => region
  end.

(** A reply with the given status and a body that parses to [j]. *)
Definition reply_json (status : Z) (j : json) : reply :=
  Resp {| status_code := status; content := ""; body_json := Some j |}.

(** A reply with the given status and a body that does not parse. *)
Definition reply_text (status : Z) (text : string) : reply :=
  Resp {| status_code := status; content := text; body_json := None |}.

(** A server that answers every request with 404. *)
Definition world_not_found : world := scripted [50] [reply_text 404 "Not Found"].

(** * Properties *)

(** Settles a [Forall] over an explicit list of events. *)
Ltac each_event :=
  repeat first
    [ apply List.Forall_nil
    | apply List.Forall_cons;
      [ cbn; first [ exact I | reflexivity | now left | now right ] | ] ].


(** ** Counting and traces *)

Lemma count_now_snoc_now tr t : count_now (tr ++ [EvNow t]) = S (count_now tr).
Proof. unfold count_now. rewrite List.filter_app, length_app. simpl. lia. Qed.

Lemma count_now_snoc_get tr q r : count_now (tr ++ [EvGet q r]) = count_now tr.
Proof. unfold count_now. rewrite List.filter_app, length_app. simpl. lia. Qed.

Lemma count_get_snoc_now tr t : count_get (tr ++ [EvNow t]) = count_get tr.
Proof. unfold count_get. rewrite List.filter_app, length_app. simpl. lia. Qed.

Lemma count_get_snoc_get tr q r : count_get (tr ++ [EvGet q r]) = S (count_get tr).
Proof. unfold count_get. rewrite List.filter_app, length_app. simpl. lia. Qed.

Lemma since_app s s' new : trace s' = trace s ++ new -> since s s' = new.
Proof. intros H. unfold since. rewrite H. apply drop_app_length. Qed.

Lemma exchanges_app a b : exchanges (a ++ b) = (exchanges a + exchanges b)%nat.
Proof. unfold exchanges. now rewrite List.filter_app, length_app. Qed.

Lemma dispatches_app a b : dispatches (a ++ b) = (dispatches a + dispatches b)%nat.
Proof. unfold dispatches. now rewrite List.filter_app, length_app. Qed.

(** ** The exchange, step by step *)

Lemma get_client_credentials_run w region s :
  let q := oauth_request s region in
  let t0 := utcnow_at w (count_now (trace s)) in
  let r := session_get_at w (count_get (trace s)) q in
  let s1 := log (EvGet q r) (log (EvNow t0) s) in
  _get_client_credentials w region s =
    match exchange_outcome (req_url q) t0 r with
    | inl e => (Raise e, s1)
    | inr rec => (Ret tt, store_token region rec s1)
    end.
Proof.
  intros q t0 r s1. subst q t0 r s1.
  unfold _get_client_credentials, bind, get_state, _utcnow, try_except,
    session_get, oauth_request, exchange_outcome.
  cbn [trace log req_url _client_id _client_secret].
  rewrite count_get_snoc_now.
  destruct (session_get_at w _ _) as [msg | rsp]; [reflexivity|].
  destruct (ok rsp); cbn [negb]; [|reflexivity].
  unfold response_json. destruct (body_json rsp) as [j|]; cbn; [|reflexivity].
  destruct (py_getitem j "access_token") as [e|tok]; cbn; [reflexivity|].
  destruct (py_getitem j "expires_in") as [e|v]; cbn; [reflexivity|].
  destruct (timedelta_seconds v) as [e|d]; cbn; reflexivity.
Qed.

(** ** The executor, step by step *)

Lemma handle_request_step w fuel url region params s :
  let q := resource_request url params in
  let r := session_get_at w (count_get (trace s)) q in
  let s1 := log (EvGet q r) s in
  _handle_request w (S fuel) url region params s =
    if is_401 r
    then (_get_client_credentials w region ;;;
          _handle_request w fuel url region params) s1
    else (final_outcome url r, s1).
Proof.
  intros q r s1. subst q r s1. cbn [_handle_request].
  unfold bind at 1. unfold try_except at 1. unfold session_get, resource_request.
  destruct (session_get_at w _ _) as [msg | rsp]; [reflexivity|].
  cbn [is_401 final_outcome]. unfold ok.
  destruct (Z.eqb_spec (status_code rsp) 401) as [E|NE].
  - rewrite E. reflexivity.
  - destruct (_ && _); cbn [negb]; [reflexivity|].
    unfold try_except, lift, response_json.
    destruct (body_json rsp); reflexivity.
Qed.

Lemma trace_log e s : trace (log e s) = trace s ++ [e].
Proof. reflexivity. Qed.

Lemma trace_store_token r rec s : trace (store_token r rec s) = trace s.
Proof. reflexivity. Qed.

Lemma oauth_request_log e s region : oauth_request (log e s) region = oauth_request s region.
Proof. reflexivity. Qed.

Lemma oauth_request_store r rec s region :
  oauth_request (store_token r rec s) region = oauth_request s region.
Proof. reflexivity. Qed.

Lemma handle_request_chain w k : forall fuel url region params s,
  chain_401 w (resource_request url params) (oauth_request s region)
    (count_get (trace s)) (count_now (trace s)) k = true ->
  is_401 (session_get_at w (count_get (trace s) + 2 * k)
            (resource_request url params)) = false ->
  (k < fuel)%nat ->
  exists new s',
    _handle_request w fuel url region params s =
      (final_outcome url (session_get_at w (count_get (trace s) + 2 * k)
                            (resource_request url params)), s')
    /\ trace s' = trace s ++ new
    /\ exchanges new = k /\ dispatches new = S k.
Proof.
  induction k as [|k IH]; intros fuel url region params s Hchain Hlast Hfuel.
  - destruct fuel as [|fuel]; [lia|].
    rewrite handle_request_step.
    replace (count_get (trace s) + 2 * 0)%nat with (count_get (trace s)) in * by lia.
    rewrite Hlast. eexists _, _. split; [reflexivity|].
    split; [reflexivity|]. split; reflexivity.
  - destruct fuel as [|fuel]; [lia|].
    rewrite handle_request_step.
    cbn [chain_401] in Hchain.
    apply andb_prop in Hchain as [Hchain Hrest].
    apply andb_prop in Hchain as [H401 Hexch].
    rewrite H401. unfold bind at 1.
    rewrite get_client_credentials_run.
    rewrite oauth_request_log. cbn [trace log].
    rewrite count_now_snoc_get, count_get_snoc_get.
    destruct (exchange_outcome _ _ _) as [e|rec]; [discriminate|].
    set (s2 := store_token region rec _).
    destruct (IH fuel url region params s2) as (new & s' & Hrun & Htr & Hex & Hdi).
    + subst s2. cbn [trace store_token log].
      rewrite oauth_request_store, !oauth_request_log.
      rewrite count_get_snoc_get, count_get_snoc_now, count_get_snoc_get.
      rewrite count_now_snoc_get, count_now_snoc_now, count_now_snoc_get.
      exact Hrest.
    + subst s2. cbn [trace store_token log].
      rewrite count_get_snoc_get, count_get_snoc_now, count_get_snoc_get.
      replace (S (S (count_get (trace s))) + 2 * k)%nat
        with (count_get (trace s) + 2 * S k)%nat by lia.
      exact Hlast.
    + lia.
    + subst s2. rewrite trace_store_token, !trace_log in Hrun, Htr.
      rewrite count_get_snoc_get, count_get_snoc_now, count_get_snoc_get in Hrun.
      replace (S (S (count_get (trace s))) + 2 * k)%nat
        with (count_get (trace s) + 2 * S k)%nat in Hrun by lia.
      rewrite Hrun.
      eexists _, s'. split; [reflexivity|].
      split; [rewrite Htr, <- !app_assoc; reflexivity|].
      rewrite !exchanges_app, !dispatches_app, Hex, Hdi.
      split; reflexivity.
Qed.

(** ** The retry after a 401 *)

(** C1, in the form the code satisfies.  The executor answers every 401 with one forced token
    refresh and one more dispatch of the request: when the resource request
    is answered by 401 [k] times in a row, each refresh succeeding, and then
    by a reply that is not a 401, the call performs exactly [k] exchanges
    and [k + 1] dispatches and ends with what that last reply gives.  The
    number of retries is set by the replies, not by the executor. *)
Theorem handle_request_retries_after_each_401 w fuel url region params s k :
  chain_401 w (resource_request url params) (oauth_request s region)
    (count_get (trace s)) (count_now (trace s)) k = true ->
  is_401 (session_get_at w (count_get (trace s) + 2 * k)
            (resource_request url params)) = false ->
  (k < fuel)%nat ->
  let run := _handle_request w fuel url region params s in
  fst run = final_outcome url (session_get_at w (count_get (trace s) + 2 * k)
                                 (resource_request url params))
  /\ exchanges (since s (snd run)) = k
  /\ dispatches (since s (snd run)) = S k.
Proof.
  intros Hchain Hlast Hfuel run. subst run.
  destruct (handle_request_chain w k fuel url region params s Hchain Hlast Hfuel)
    as (new & s' & -> & Htr & Hex & Hdi).
  cbn [fst snd]. rewrite (since_app _ _ _ Htr). auto.
Qed.

Lemma handle_request_retries_after_each_401_witness :
  let run := _handle_request world_401_twice 3 item_url "us" old_params
               client_with_old_token in
  fst run = Ret item_payload
  /\ exchanges (since client_with_old_token (snd run)) = 2%nat
  /\ dispatches (since client_with_old_token (snd run)) = 3%nat.
Proof.
  apply (handle_request_retries_after_each_401 world_401_twice 3 item_url "us"
           old_params client_with_old_token 2).
  - vm_compute. reflexivity.
  - vm_compute. reflexivity.
  - lia.
Defined.

(** C1 as the specification states it fails.  After two 401 in a row the
    executor has refreshed twice and dispatches a third time; here the call
    returns the payload of the third reply instead of a request error. *)
Lemma retry_bounded_once_counterexample :
  let q := resource_request item_url old_params in
  let run := _handle_request world_401_twice 3 item_url "us" old_params
               client_with_old_token in
  is_401 (session_get_at world_401_twice 0 q) = true
  /\ is_401 (session_get_at world_401_twice 2 q) = true
  /\ fst run = Ret item_payload
  /\ ~ retried_once_then_failed client_with_old_token run.
Proof.
  cbv zeta. repeat split; try (vm_compute; reflexivity).
  intros (Hex & _). vm_compute in Hex. discriminate.
Qed.

(** Against a server that keeps answering 401 the recursion never ends by
    itself: whatever the budget, it is spent, with one exchange per level. *)
Lemma handle_request_always_401 fuel : forall url region params s,
  exists new s',
    _handle_request world_always_401 fuel url region params s = (OutOfFuel, s')
    /\ trace s' = trace s ++ new
    /\ exchanges new = fuel.
Proof.
  induction fuel as [|fuel IH]; intros url region params s.
  - exists [], s. cbn. rewrite app_nil_r. auto.
  - rewrite handle_request_step. cbn [world_always_401 session_get_at
      resource_request req_params reply_401 is_401 status_code].
    change (401 =? 401) with true. cbv iota.
    unfold bind at 1. rewrite get_client_credentials_run.
    cbn [world_always_401 session_get_at oauth_request req_params].
    change (exchange_outcome _ ?t (reply_token "T" 100))
      with (@inr exn _ {| token := JStr "T";
                          expiration := t + 100 * microseconds_per_second |}).
    cbv iota.
    match goal with |- context [_handle_request _ _ _ _ _ ?s2] =>
      destruct (IH url region params s2) as (new & s' & Hrun & Htr & Hex) end.
    rewrite Hrun. rewrite trace_store_token, !trace_log in Htr.
    eexists _, s'. split; [reflexivity|].
    split; [rewrite Htr, <- !app_assoc; reflexivity|].
    rewrite !exchanges_app, Hex. reflexivity.
Qed.

(** ** How the client evolves *)

Lemma evolves_refl s : evolves s s [].
Proof.
  unfold evolves. rewrite app_nil_r. repeat split; auto.
Qed.

Lemma evolves_trans s s1 s2 n1 n2 :
  evolves s s1 n1 -> evolves s1 s2 n2 -> evolves s s2 (n1 ++ n2).
Proof.
  intros (Hid1 & Hsec1 & Htr1 & Htok1) (Hid2 & Hsec2 & Htr2 & Htok2).
  unfold evolves. repeat split; try congruence.
  - rewrite Htr2, Htr1. now rewrite app_assoc.
  - intros region.
    destruct (Htok2 region) as [Heq2 | (rec & Hrec & Hex)].
    + destruct (Htok1 region) as [Heq1 | (rec & Hrec & Hex)].
      * left. congruence.
      * right. exists rec. split; [congruence|].
        destruct Hex as (pre & post & t0 & r & -> & Hout).
        exists pre, (post ++ n2), t0, r. split; [|exact Hout].
        now rewrite <- app_assoc.
    + right. exists rec. split; [exact Hrec|].
      rewrite Hid1, Hsec1 in Hex.
      destruct Hex as (pre & post & t0 & r & -> & Hout).
      exists (n1 ++ pre), post, t0, r. split; [|exact Hout].
      now rewrite <- app_assoc.
Qed.

Lemma evolves_log e s : evolves s (log e s) [e].
Proof. unfold evolves. cbn. repeat split; auto. Qed.

Lemma get_client_credentials_evolves w region s :
  exists new, evolves s (snd (_get_client_credentials w region s)) new.
Proof.
  rewrite get_client_credentials_run.
  set (q := oauth_request s region).
  set (t0 := utcnow_at w (count_now (trace s))).
  set (r := session_get_at w (count_get (trace s)) q).
  exists [EvNow t0; EvGet q r].
  destruct (exchange_outcome (req_url q) t0 r) as [e|rec] eqn:Hout; cbn [snd].
  - apply (evolves_trans s (log (EvNow t0) s) _ [EvNow t0] [EvGet q r]);
      apply evolves_log.
  - unfold evolves. cbn [_client_id _client_secret trace store_token log
      _access_tokens]. repeat split; auto.
    + now rewrite <- app_assoc.
    + intros region'. destruct (decide (region = region')) as [<-|Hne].
      * right. exists rec. rewrite lookup_insert_eq. split; [reflexivity|].
        exists [], [], t0, r. split; [reflexivity|exact Hout].
      * left. now rewrite lookup_insert_ne.
Qed.

Lemma handle_request_evolves w fuel : forall url region params s,
  exists new, evolves s (snd (_handle_request w fuel url region params s)) new.
Proof.
  induction fuel as [|fuel IH]; intros url region params s.
  - exists []. apply evolves_refl.
  - rewrite handle_request_step.
    set (q := resource_request url params).
    set (r := session_get_at w (count_get (trace s)) q).
    destruct (is_401 r).
    + unfold bind.
      destruct (get_client_credentials_evolves w region (log (EvGet q r) s))
        as (n1 & H1).
      destruct (_get_client_credentials w region (log (EvGet q r) s))
        as [[[]|e|] s1]; cbn [snd] in *.
      * destruct (IH url region params s1) as (n2 & H2).
        exists ([EvGet q r] ++ n1 ++ n2).
        eapply evolves_trans; [apply evolves_log|].
        eapply evolves_trans; eassumption.
      * exists ([EvGet q r] ++ n1).
        eapply evolves_trans; [apply evolves_log|eassumption].
      * exists ([EvGet q r] ++ n1).
        eapply evolves_trans; [apply evolves_log|eassumption].
    + exists [EvGet q r]. apply evolves_log.
Qed.

Lemma check_token_evolves w region s :
  exists new, evolves s (snd (check_token w region s)) new.
Proof.
  unfold check_token, bind, get_state.
  destruct (_access_tokens s !! region) as [rec|].
  - unfold _utcnow at 1.
    set (t := utcnow_at w (count_now (trace s))).
    destruct (expiration rec - thirty_seconds <=? t).
    + destruct (get_client_credentials_evolves w region (log (EvNow t) s))
        as (n1 & H1).
      exists ([EvNow t] ++ n1).
      eapply evolves_trans; [apply evolves_log|eassumption].
    + exists [EvNow t]. apply evolves_log.
  - apply get_client_credentials_evolves.
Qed.

Lemma get_data_resource_evolves w fuel url region s :
  exists new, evolves s (snd (get_data_resource w fuel url region s)) new.
Proof.
  unfold get_data_resource, bind, get_state. apply handle_request_evolves.
Qed.

Lemma get_resource_evolves w fuel resource region args filters s :
  exists new, evolves s (snd (get_resource w fuel resource region args filters s)) new.
Proof.
  unfold get_resource. unfold bind at 1.
  destruct (py_format resource args) as [e|path]; cbn [lift raise ret].
  - exists []. apply evolves_refl.
  - unfold bind at 1.
    destruct (check_token_evolves w region s) as (n1 & H1).
    destruct (check_token w region s) as [[[]|e|] s1]; cbn [snd] in *;
      [|exists n1; exact H1..].
    unfold bind, get_state.
    destruct (_access_tokens s1 !! region) as [rec|].
    + destruct (handle_request_evolves w fuel (resource_url region path) region
                  (<["access_token" := token rec]> filters) s1) as (n2 & H2).
      exists (n1 ++ n2). eapply evolves_trans; eassumption.
    + exists n1. exact H1.
Qed.

Lemma call_get_resource_free w fuel resource region args filters s :
  filters !! "resource" = None ->
  call_get_resource w fuel resource region args filters s
  = get_resource w fuel resource region args filters s.
Proof. intros H. unfold call_get_resource. now rewrite H. Qed.

Lemma call_get_resource_collision w fuel resource region args filters s :
  is_Some (filters !! "resource") ->
  call_get_resource w fuel resource region args filters s = (Raise TypeError, s).
Proof. intros [v H]. unfold call_get_resource. now rewrite H. Qed.

Lemma call_get_resource_evolves w fuel resource region args filters s :
  exists new,
    evolves s (snd (call_get_resource w fuel resource region args filters s)) new.
Proof.
  unfold call_get_resource. destruct (filters !! "resource").
  - exists []. apply evolves_refl.
  - apply get_resource_evolves.
Qed.

Lemma exec_evolves w fuel o s : exists new, evolves s (exec w fuel o s) new.
Proof.
  destruct o; cbn [exec].
  - apply get_client_credentials_evolves.
  - apply handle_request_evolves.
  - apply get_data_resource_evolves.
  - apply get_resource_evolves.
  - apply call_get_resource_evolves.
Qed.

(** C7.  The token cache is empty when the client is built.  Every
    operation leaves the record of a region as it was, or leaves in its
    place a record that one exchange for that region produced as a whole,
    token and expiration together; a region that has a record keeps
    having one. *)
Theorem token_cache_lifecycle :
  (forall cid sec, _access_tokens (WowApi_init cid sec) = ∅)
  /\ forall w fuel o s region,
       let s' := exec w fuel o s in
       (_access_tokens s' !! region = _access_tokens s !! region
        \/ exists rec, _access_tokens s' !! region = Some rec
                       /\ exchanged (_client_id s) (_client_secret s) region rec
                            (since s s'))
       /\ (is_Some (_access_tokens s !! region)
           -> is_Some (_access_tokens s' !! region)).
Proof.
  split; [reflexivity|].
  intros w fuel o s region s'. subst s'.
  destruct (exec_evolves w fuel o s) as (new & _ & _ & Htr & Htok).
  rewrite (since_app _ _ _ Htr).
  split; [apply Htok|].
  intros Hsome. destruct (Htok region) as [-> | (rec & -> & _)]; eauto.
Qed.

(** ** The OAuth exchange *)

Lemma get_client_credentials_trace w region s :
  let q := oauth_request s region in
  let t0 := utcnow_at w (count_now (trace s)) in
  let r := session_get_at w (count_get (trace s)) q in
  let s' := snd (_get_client_credentials w region s) in
  trace s' = trace s ++ [EvNow t0; EvGet q r]
  /\ _client_id s' = _client_id s /\ _client_secret s' = _client_secret s.
Proof.
  intros q t0 r s'. subst s'. rewrite get_client_credentials_run. fold q t0 r.
  destruct (exchange_outcome _ _ _); cbn [snd trace log store_token
    _client_id _client_secret]; rewrite <- app_assoc; auto.
Qed.

(** C5.  An exchange whose reply is a success carrying [access_token] and
    the integer [expires_in = n], with [n] seconds a timedelta and [t0 + n]
    seconds a datetime that Python can hold, returns normally and stores for
    the region the token with the expiration [t0 + n] seconds, where [t0] is
    the clock reading taken before the request is sent (the trace shows the
    order). *)
Theorem exchange_expiration_exact w region s rsp items tok n :
  session_get_at w (count_get (trace s)) (oauth_request s region) = Resp rsp ->
  ok rsp = true ->
  body_json rsp = Some (JObj items) ->
  assoc "access_token" items = Some tok ->
  assoc "expires_in" items = Some (JInt n) ->
  timedelta_representable (n * microseconds_per_second) ->
  representable (utcnow_at w (count_now (trace s)) + n * microseconds_per_second) ->
  let t0 := utcnow_at w (count_now (trace s)) in
  let run := _get_client_credentials w region s in
  fst run = Ret tt
  /\ since s (snd run) = [EvNow t0; EvGet (oauth_request s region) (Resp rsp)]
  /\ _access_tokens (snd run) !! region
     = Some {| token := tok; expiration := t0 + n * microseconds_per_second |}.
Proof.
  intros Hr Hok Hbody Htok Hexp _ _ t0 run. subst run.
  destruct (get_client_credentials_trace w region s) as (Htr & _).
  rewrite (since_app _ _ _ Htr). rewrite Hr.
  rewrite get_client_credentials_run. rewrite Hr.
  unfold exchange_outcome, py_getitem. rewrite Hok, Hbody, Htok, Hexp.
  cbn. rewrite lookup_insert_eq. auto.
Qed.

Lemma exchange_expiration_exact_witness :
  let run := _get_client_credentials world_always_401 "us" (WowApi_init "id" "secret") in
  fst run = Ret tt
  /\ _access_tokens (snd run) !! "us"
     = Some {| token := JStr "T"; expiration := 0 + 100 * microseconds_per_second |}.
Proof.
  assert (Hdelta : timedelta_representable (100 * microseconds_per_second)).
  { unfold timedelta_representable, microseconds_per_second. lia. }
  assert (Hsum : representable (0 + 100 * microseconds_per_second)).
  { unfold representable, datetime_max, microseconds_per_second. lia. }
  pose proof (exchange_expiration_exact world_always_401 "us"
                (WowApi_init "id" "secret")
                {| status_code := 200; content := "";
                   body_json := Some (JObj [("access_token", JStr "T");
                                            ("expires_in", JInt 100)]) |}
                [("access_token", JStr "T"); ("expires_in", JInt 100)]
                (JStr "T") 100
                eq_refl eq_refl eq_refl eq_refl eq_refl Hdelta Hsum) as (H1 & _ & H3).
  split; [exact H1 | exact H3].
Defined.

(** A body without [access_token] makes the subscript fail: the exception
    is the built-in one, not the authentication error, and nothing is
    stored. *)
Lemma missing_access_token_escapes w region s rsp j e :
  session_get_at w (count_get (trace s)) (oauth_request s region) = Resp rsp ->
  ok rsp = true ->
  body_json rsp = Some j ->
  py_getitem j "access_token" = inl e ->
  let run := _get_client_credentials w region s in
  fst run = Raise e
  /\ (e = KeyError "access_token" \/ e = TypeError)
  /\ is_oauth_error e = false
  /\ _access_tokens (snd run) = _access_tokens s.
Proof.
  intros Hr Hok Hbody Hget run. subst run.
  rewrite get_client_credentials_run, Hr.
  unfold exchange_outcome. rewrite Hok, Hbody, Hget. cbn [fst snd].
  assert (He : e = KeyError "access_token" \/ e = TypeError).
  { unfold py_getitem in Hget.
    destruct j; try (injection Hget as <-; now right).
    destruct (assoc _ _); [discriminate|]. injection Hget as <-. now left. }
  split; [reflexivity|]. split; [exact He|].
  split; [destruct He as [-> | ->]; reflexivity | reflexivity].
Qed.

(** C4, the code at the failing input: on the body {"expires_in": 100}
    the exchange raises KeyError, which is not the authentication error;
    the cache stays empty. *)
Theorem missing_access_token_raises_KeyError :
  let run := _get_client_credentials world_without_token "us"
               (WowApi_init "id" "secret") in
  fst run = Raise (KeyError "access_token")
  /\ is_oauth_error (KeyError "access_token") = false
  /\ _access_tokens (snd run) = ∅.
Proof.
  cbv zeta. repeat split.
Qed.

(** An exchange that fails for one of the listed reasons raises an
    exception and leaves the whole token cache as it was.  The exception is
    the authentication error, except for an incomplete body, where the
    failing subscript or conversion raises the built-in exception. *)
Lemma failed_exchange_leaves_cache w region s f :
  failure_of (session_get_at w (count_get (trace s)) (oauth_request s region))
    = Some f ->
  let run := _get_client_credentials w region s in
  (exists e, fst run = Raise e
             /\ (is_incomplete f = false -> is_oauth_error e = true))
  /\ _access_tokens (snd run) = _access_tokens s.
Proof.
  intros Hf run. subst run. rewrite get_client_credentials_run.
  destruct (session_get_at w _ _) as [msg|rsp]; cbn in Hf |- *.
  - split; [eexists; split; [reflexivity|reflexivity] | reflexivity].
  - destruct (ok rsp).
    + destruct (body_json rsp) as [j|].
      * destruct (py_getitem j "access_token") as [e|tok]; cbn in Hf |- *.
        { injection Hf as <-. split; [|reflexivity].
          exists e. split; [reflexivity|discriminate]. }
        destruct (py_getitem j "expires_in") as [e|v]; cbn in Hf |- *;
          [|discriminate].
        injection Hf as <-. split; [|reflexivity].
        exists e. split; [reflexivity|discriminate].
      * injection Hf as <-. cbn.
        split; [eexists; split; reflexivity | reflexivity].
    + injection Hf as <-. cbn.
      split; [eexists; split; reflexivity | reflexivity].
Qed.

Lemma failed_exchange_leaves_cache_witness :
  let run := _get_client_credentials world_unreachable "us" client_with_old_token in
  (exists e, fst run = Raise e
             /\ (is_incomplete ConnectionFailure = false -> is_oauth_error e = true))
  /\ _access_tokens (snd run) = _access_tokens client_with_old_token.
Proof.
  apply (failed_exchange_leaves_cache world_unreachable "us"
           client_with_old_token ConnectionFailure).
  reflexivity.
Defined.

(** C6, the code at the failing input: on the body {"access_token": "T1"},
    which is incomplete, the subscript for [expires_in] raises KeyError,
    which is neither the authentication error nor the request error.  The
    token cache is left as it was, for every region. *)
Theorem missing_expires_in_raises_KeyError :
  let run := _get_client_credentials world_without_expiry "us"
               client_with_old_token in
  failure_of reply_without_expiry = Some Incomplete
  /\ fst run = Raise (KeyError "expires_in")
  /\ is_oauth_error (KeyError "expires_in") = false
  /\ is_request_error (KeyError "expires_in") = false
  /\ _access_tokens (snd run) = _access_tokens client_with_old_token.
Proof.
  cbv zeta. repeat split.
Qed.


(** ** The shape of a call *)

Lemma retry_evolves w fuel url region params s :
  exists new,
    evolves s (snd ((_get_client_credentials w region ;;;
                     _handle_request w fuel url region params) s)) new.
Proof.
  unfold bind.
  destruct (get_client_credentials_evolves w region s) as (n1 & H1).
  destruct (_get_client_credentials w region s) as [[[]|e|] s1]; cbn [snd] in *;
    [|exists n1; exact H1..].
  destruct (handle_request_evolves w fuel url region params s1) as (n2 & H2).
  exists (n1 ++ n2). eapply evolves_trans; eassumption.
Qed.

(** A call of the executor with budget left starts by dispatching the
    request it was given; unless the reply is a 401 that is all it does. *)
Lemma handle_request_head w fuel url region params s :
  let q := resource_request url params in
  let r := session_get_at w (count_get (trace s)) q in
  let run := _handle_request w (S fuel) url region params s in
  exists rest,
    trace (snd run) = trace s ++ EvGet q r :: rest
    /\ (is_401 r = false -> rest = [] /\ fst run = final_outcome url r).
Proof.
  intros q r run. subst run. rewrite handle_request_step. fold q r.
  destruct (is_401 r).
  - destruct (retry_evolves w fuel url region params (log (EvGet q r) s))
      as (new & _ & _ & Htr & _).
    exists new. split; [|discriminate].
    rewrite Htr, trace_log, <- app_assoc. reflexivity.
  - exists []. cbn [snd fst]. split; [reflexivity | auto].
Qed.

(** Every [get] of a call of the executor is the OAuth request of the
    region or the one resource request the call was given, parameters
    included. *)
Lemma handle_request_sends w fuel : forall url region params s,
  exists new,
    evolves s (snd (_handle_request w fuel url region params s)) new
    /\ Forall (sent_as (oauth_request s region) (resource_request url params)) new.
Proof.
  induction fuel as [|fuel IH]; intros url region params s.
  - exists []. split; [apply evolves_refl | constructor].
  - rewrite handle_request_step.
    set (q := resource_request url params).
    set (r := session_get_at w (count_get (trace s)) q).
    set (s1 := log (EvGet q r) s).
    destruct (is_401 r).
    + unfold bind.
      destruct (get_client_credentials_evolves w region s1) as (n1 & H1).
      destruct (get_client_credentials_trace w region s1) as (Htr1 & Hid1 & Hsec1).
      assert (Hn1 : n1 = [EvNow (utcnow_at w (count_now (trace s1)));
                          EvGet (oauth_request s region)
                            (session_get_at w (count_get (trace s1))
                               (oauth_request s1 region))]).
      { destruct H1 as (_ & _ & Htr & _). rewrite Htr in Htr1.
        apply app_inv_head in Htr1. exact Htr1. }
      assert (Hsent1 : Forall (sent_as (oauth_request s region) q) n1).
      { rewrite Hn1. each_event. }
      destruct (_get_client_credentials w region s1) as [[[]|e|] s2];
        cbn [snd] in *.
      * destruct (IH url region params s2) as (n2 & H2 & Hsent2).
        exists ([EvGet q r] ++ n1 ++ n2). split.
        { eapply evolves_trans; [apply evolves_log|].
          eapply evolves_trans; eassumption. }
        apply Forall_app. split; [each_event|].
        apply Forall_app. split; [exact Hsent1|].
        replace (oauth_request s region) with (oauth_request s2 region);
          [exact Hsent2|].
        unfold oauth_request. now rewrite Hid1, Hsec1.
      * exists ([EvGet q r] ++ n1). split.
        { eapply evolves_trans; [apply evolves_log|eassumption]. }
        apply Forall_app. split; [each_event|exact Hsent1].
      * exists ([EvGet q r] ++ n1). split.
        { eapply evolves_trans; [apply evolves_log|eassumption]. }
        apply Forall_app. split; [each_event|exact Hsent1].
    + exists [EvGet q r]. split; [apply evolves_log|]. each_event.
Qed.

Lemma check_token_run w region s :
  check_token w region s =
    match _access_tokens s !! region with
    | None => _get_client_credentials w region s
    | Some rec =>
        let t := utcnow_at w (count_now (trace s)) in
        if expiration rec - thirty_seconds <=? t
        then _get_client_credentials w region (log (EvNow t) s)
        else (Ret tt, log (EvNow t) s)
    end.
Proof.
  unfold check_token, bind, get_state.
  destruct (_access_tokens s !! region) as [rec|]; [|reflexivity].
  unfold _utcnow at 1. cbv zeta.
  destruct (_ <=? _); reflexivity.
Qed.

(** When the check returns, the region has a token. *)
Lemma check_token_ret w region s :
  fst (check_token w region s) = Ret tt ->
  is_Some (_access_tokens (snd (check_token w region s)) !! region).
Proof.
  assert (Hcred : forall s0,
    fst (_get_client_credentials w region s0) = Ret tt ->
    is_Some (_access_tokens (snd (_get_client_credentials w region s0)) !! region)).
  { intros s0. rewrite get_client_credentials_run.
    destruct (exchange_outcome _ _ _) as [e|rec]; cbn; [discriminate|].
    intros _. rewrite lookup_insert_eq. eauto. }
  rewrite check_token_run.
  destruct (_access_tokens s !! region) as [rec|] eqn:Hlook; [|apply Hcred].
  cbv zeta. destruct (_ <=? _); [apply Hcred|].
  cbn. rewrite Hlook. eauto.
Qed.

(** The check dispatches no resource request, and performs one exchange
    or none. *)
Lemma check_token_trace w region s :
  exists pre,
    trace (snd (check_token w region s)) = trace s ++ pre
    /\ Forall (fun e => is_resource_get e = false) pre
    /\ Forall (sent_as (oauth_request s region) (oauth_request s region)) pre
    /\ exchanges pre =
         match _access_tokens s !! region with
         | None => 1%nat
         | Some rec =>
             if expiration rec - thirty_seconds
                <=? utcnow_at w (count_now (trace s))
             then 1%nat else 0%nat
         end.
Proof.
  rewrite check_token_run.
  destruct (_access_tokens s !! region) as [rec|].
  - cbv zeta. destruct (_ <=? _).
    + destruct (get_client_credentials_trace w region
                  (log (EvNow (utcnow_at w (count_now (trace s)))) s))
        as (Htr & _).
      eexists. split; [rewrite Htr, trace_log, <- app_assoc; reflexivity|].
      split; [each_event|]. split; [each_event|reflexivity].
    + eexists. split; [reflexivity|]. split; [each_event|].
      split; [each_event | reflexivity].
  - destruct (get_client_credentials_trace w region s) as (Htr & _).
    eexists. split; [exact Htr|]. split; [each_event|].
    split; [each_event|reflexivity].
Qed.

Lemma get_resource_run w fuel resource region args filters s path :
  py_format resource args = inr path ->
  get_resource w fuel resource region args filters s =
    match check_token w region s with
    | (Ret _, s1) =>
        match _access_tokens s1 !! region with
        | Some rec =>
            _handle_request w fuel (resource_url region path) region
              (<["access_token" := token rec]> filters) s1
        | None => (Raise (KeyError region), s1)
        end
    | (Raise e, s1) => (Raise e, s1)
    | (OutOfFuel, s1) => (OutOfFuel, s1)
    end.
Proof.
  intros Hfmt. unfold get_resource. rewrite Hfmt.
  unfold bind at 1. cbn [lift ret]. unfold bind at 1.
  destruct (check_token w region s) as [[[]|e|] s1]; try reflexivity.
  unfold bind, get_state. destruct (_access_tokens s1 !! region); reflexivity.
Qed.



Lemma string_app_nil_r (a : string) : a +:+ "" = a.
Proof.
  induction a as [|ch a IH]; [reflexivity|].
  change (String ch (a +:+ "") = String ch a). now rewrite IH.
Qed.




(** ** The proactive refresh *)



(** ** Endpoints *)





(** ** Endpoint methods *)

(** The template of [get_item] is the format string of the source. *)
Lemma resource_item_source : template_source resource_item = "wow/item/{0}".
Proof. reflexivity. Qed.

Lemma py_format_item id : py_format resource_item [id] = inr ("wow/item/" +:+ py_str id).
Proof. cbn. now rewrite string_app_nil_r. Qed.

Lemma dispatches_none pre :
  Forall (fun e => is_resource_get e = false) pre -> dispatches pre = 0%nat.
Proof.
  unfold dispatches. induction 1 as [|e pre He _ IH]; [reflexivity|].
  cbn. now rewrite He.
Qed.

(** C9.  [get_item], called with filters none of which is named resource,
    first checks the token of the region.  When the check returns, the
    request dispatched next goes to the data host of the region with the
    path wow/item/ followed by the text of the id, and its parameters are
    the filters of the caller with [access_token] bound to the token then
    cached for the region; nothing was dispatched before.  When the check
    fails the call ends there, with no dispatch. *)
Theorem get_item_request w fuel region id filters s :
  filters !! "resource" = None ->
  (0 < fuel)%nat ->
  let checked := check_token w region s in
  let run := get_item w fuel region id filters s in
  match fst checked with
  | Ret _ =>
      exists rec rest,
        _access_tokens (snd checked) !! region = Some rec
        /\ let q := resource_request
                      ("https://" +:+ resource_host region
                       +:+ "/wow/item/" +:+ py_str id)
                      (<["access_token" := token rec]> filters) in
           since s (snd run)
           = since s (snd checked)
             ++ EvGet q (session_get_at w (count_get (trace (snd checked))) q) :: rest
           /\ dispatches (since s (snd checked)) = 0%nat
  | _ => snd run = snd checked /\ dispatches (since s (snd run)) = 0%nat
  end.
Proof.
  intros Hfree Hfuel checked run. subst checked run. unfold get_item.
  rewrite (call_get_resource_free _ _ _ _ _ _ _ Hfree).
  rewrite (get_resource_run _ _ _ _ _ _ _ _ (py_format_item id)).
  destruct (check_token_trace w region s) as (pre & Hpre & Hnone & _ & _).
  pose proof (check_token_ret w region s) as Hret.
  rewrite (since_app _ _ _ Hpre).
  destruct (check_token w region s) as [[[]|e|] s1]; cbn [fst snd] in *.
  - destruct (Hret eq_refl) as (rec & Hrec). rewrite Hrec.
    destruct fuel as [|fuel]; [lia|].
    destruct (handle_request_head w fuel
                (resource_url region ("wow/item/" +:+ py_str id)) region
                (<["access_token" := token rec]> filters) s1) as (rest & Htr & _).
    exists rec, rest. split; [reflexivity|]. cbv zeta.
    split; [|now apply dispatches_none].
    rewrite Hpre, <- app_assoc in Htr. rewrite (since_app _ _ _ Htr).
    rewrite <- Hpre. reflexivity.
  - rewrite (since_app _ _ _ Hpre). split; [reflexivity|now apply dispatches_none].
  - rewrite (since_app _ _ _ Hpre). split; [reflexivity|now apply dispatches_none].
Qed.

Lemma get_item_request_witness :
  exists rest,
    since client_with_old_token
      (snd (get_item world_401_then_200 2 "us" (PInt 1234) ∅ client_with_old_token))
    = [EvNow 50]
      ++ EvGet (resource_request "https://us.api.blizzard.com/wow/item/1234"
                  (<["access_token" := JStr "OLD"]> ∅)) reply_401 :: rest.
Proof.
  pose proof (get_item_request world_401_then_200 2 "us" (PInt 1234) ∅
                client_with_old_token (lookup_empty _) ltac:(lia)) as H.
  cbv zeta in H.
  change (fst (check_token world_401_then_200 "us" client_with_old_token))
    with (@Ret unit tt) in H.
  cbv iota in H.
  destruct H as (rec & rest & Hrec & Hsince & _).
  exists rest.
  change (_access_tokens (snd (check_token world_401_then_200 "us"
                                 client_with_old_token)) !! "us")
    with (Some {| token := JStr "OLD";
                  expiration := 1000000000 * microseconds_per_second |}) in Hrec.
  injection Hrec as <-.
  exact Hsince.
Defined.

(** ** The lower-level path *)

(** C10.  [get_data_resource] reads no clock and performs no exchange
    before it dispatches: its first act is the request to the given url
    with [access_token] bound to the cached token of the region, whatever
    its expiration, or to the empty string when the region has no record.
    Unless the reply is a 401 nothing follows, so an exchange occurs only
    after a 401. *)
Theorem get_data_resource_skips_refresh w fuel url region s :
  (0 < fuel)%nat ->
  let tok := match _access_tokens s !! region with
             | Some rec => token rec
             | None => JStr ""
             end in
  let q := resource_request url {[ "access_token" := tok ]} in
  let r := session_get_at w (count_get (trace s)) q in
  let run := get_data_resource w fuel url region s in
  exists rest,
    since s (snd run) = EvGet q r :: rest
    /\ (is_401 r = false -> rest = [] /\ fst run = final_outcome url r)
    /\ (exchanges (since s (snd run)) <> 0%nat -> is_401 r = true).
Proof.
  intros Hfuel tok q r run. subst run.
  destruct fuel as [|fuel]; [lia|].
  unfold get_data_resource, bind, get_state.
  replace (default (JStr "") (token <$> _access_tokens s !! region)) with tok
    by (subst tok; destruct (_access_tokens s !! region); reflexivity).
  destruct (handle_request_head w fuel url region {["access_token" := tok]} s)
    as (rest & Htr & Hlast).
  fold q r in Htr, Hlast.
  exists rest. rewrite (since_app _ _ _ Htr).
  split; [reflexivity|]. split; [exact Hlast|].
  intros Hex. destruct (is_401 r); [reflexivity|].
  destruct (Hlast eq_refl) as (-> & _). cbn in Hex. congruence.
Qed.

Lemma get_data_resource_skips_refresh_witness :
  exists rest,
    since (WowApi_init "id" "secret")
      (snd (get_data_resource world_401_then_200 2 item_url "us"
              (WowApi_init "id" "secret")))
    = EvGet (resource_request item_url {[ "access_token" := JStr "" ]}) reply_401
      :: rest.
Proof.
  destruct (get_data_resource_skips_refresh world_401_then_200 2 item_url "us"
              (WowApi_init "id" "secret") ltac:(lia)) as (rest & H & _).
  exists rest. exact H.
Defined.

(** ** The retried request *)

(** In every call of [get_resource] all the resource requests, the retried
    ones included, are one and the same request: its [access_token] is the
    token that was cached at the first dispatch, whatever the exchanges in
    between have stored since. *)
Lemma retry_resends_the_first_request w fuel resource region args filters s path :
  py_format resource args = inr path ->
  fst (check_token w region s) = Ret tt ->
  exists rec,
    _access_tokens (snd (check_token w region s)) !! region = Some rec
    /\ Forall (sent_as (oauth_request s region)
                 (resource_request (resource_url region path)
                    (<["access_token" := token rec]> filters)))
         (since (snd (check_token w region s))
            (snd (get_resource w fuel resource region args filters s))).
Proof.
  intros Hfmt Hret.
  destruct (check_token_ret w region s Hret) as (rec & Hrec).
  destruct (check_token_evolves w region s) as (pre & Hid & Hsec & _ & _).
  exists rec. split; [exact Hrec|].
  rewrite (get_resource_run _ _ _ _ _ _ _ _ Hfmt).
  destruct (check_token w region s) as [[[]|e|] s1]; cbn [fst snd] in *;
    try discriminate.
  rewrite Hrec.
  destruct (handle_request_sends w fuel (resource_url region path) region
              (<["access_token" := token rec]> filters) s1)
    as (rest & (_ & _ & Htr & _) & Hrest).
  rewrite (since_app _ _ _ Htr).
  replace (oauth_request s region) with (oauth_request s1 region); [exact Hrest|].
  unfold oauth_request. now rewrite Hid, Hsec.
Qed.

(** C2, the code at the failing input: the client holds the token OLD, the
    first reply is a 401, the exchange grants NEW, the second reply is a
    200.  One exchange and one retry take place and the payload is
    returned, but the retried request is the first one again and carries
    OLD, while the cache holds NEW. *)
Theorem retried_request_carries_old_token :
  let run := get_item world_401_then_200 2 "us" (PInt 1234) ∅ client_with_old_token in
  fst run = Ret item_payload
  /\ since client_with_old_token (snd run)
     = [ EvNow 50;
         EvGet (resource_request item_url old_params) reply_401;
         EvNow 60;
         EvGet (oauth_request client_with_old_token "us") (reply_token "NEW" 100);
         EvGet (resource_request item_url old_params) reply_item ]
  /\ token <$> _access_tokens (snd run) !! "us" = Some (JStr "NEW")
  /\ old_params !! "access_token" = Some (JStr "OLD").
Proof.
  cbv zeta. repeat split; vm_compute; reflexivity.
Qed.

(** * Further properties of the code *)

(** ** Path templates *)

Lemma py_format_fits tpl args :
  is_success (py_format tpl args) = fields_fit tpl (length args).
Proof.
  unfold fields_fit.
  induction tpl as [|[lit|i] tpl IH]; [reflexivity| |]; cbn [py_format forallb].
  - rewrite <- IH. destruct (py_format tpl args); reflexivity.
  - destruct (args !! i) as [a|] eqn:Hi.
    + apply lookup_lt_Some in Hi.
      destruct (Nat.ltb_spec i (length args)); [|lia].
      rewrite <- IH. destruct (py_format tpl args); reflexivity.
    + apply lookup_ge_None in Hi.
      destruct (Nat.ltb_spec i (length args)); [lia|reflexivity].
Qed.

Lemma py_format_error tpl args e : py_format tpl args = inl e -> e = IndexError.
Proof.
  induction tpl as [|[lit|i] tpl IH]; cbn; [discriminate| |].
  - destruct (py_format tpl args); [|discriminate].
    intros [= <-]. now apply IH.
  - destruct (args !! i); [|congruence].
    destruct (py_format tpl args); [|discriminate].
    intros [= <-]. now apply IH.
Qed.

(** X1.  When a replacement field of the template has no argument,
    [get_resource] raises IndexError at once: the clock is not read,
    nothing is sent and the client is left exactly as it was. *)
Theorem get_resource_bad_template w fuel resource region args filters s :
  fields_fit resource (length args) = false ->
  get_resource w fuel resource region args filters s = (Raise IndexError, s).
Proof.
  intros Hfit. rewrite <- py_format_fits in Hfit.
  unfold get_resource, bind.
  destruct (py_format resource args) as [e|path] eqn:Hfmt; [|discriminate].
  rewrite (py_format_error _ _ _ Hfmt). reflexivity.
Qed.

Lemma get_resource_bad_template_witness :
  get_resource world_always_401 3 resource_item "us" [] ∅ client_with_old_token
  = (Raise IndexError, client_with_old_token).
Proof.
  apply (get_resource_bad_template world_always_401 3 resource_item "us" [] ∅
           client_with_old_token).
  reflexivity.
Defined.

(** ** The exceptions that can leave the client *)

Lemma get_client_credentials_raises w region s e :
  fst (_get_client_credentials w region s) = Raise e -> exchange_error e = true.
Proof.
  rewrite get_client_credentials_run. unfold exchange_outcome.
  destruct (session_get_at w _ _) as [msg|rsp]; cbn.
  { intros [= <-]. reflexivity. }
  destruct (ok rsp); [|intros [= <-]; reflexivity].
  destruct (body_json rsp) as [j|]; [|intros [= <-]; reflexivity].
  assert (Hget : forall k x, k = "access_token" \/ k = "expires_in" ->
            py_getitem j k = inl x -> exchange_error x = true).
  { intros k x Hk. unfold py_getitem.
    destruct j; try (intros [= <-]; reflexivity).
    destruct (assoc k items); [discriminate|]. intros [= <-].
    destruct Hk as [-> | ->]; reflexivity. }
  destruct (py_getitem j "access_token") as [x|tok] eqn:Htok.
  { intros [= <-]. eapply Hget; [|exact Htok]. now left. }
  destruct (py_getitem j "expires_in") as [x|v] eqn:Hexp.
  { intros [= <-]. eapply Hget; [|exact Hexp]. now right. }
  unfold timedelta_seconds.
  destruct v; cbn; intros [= <-]; reflexivity.
Qed.

(** X2.  The exchange wraps the failures of its request.  A failure of
    the connection gives WowApiOauthException with the text of the
    exception, a status that is not a success gives WowApiOauthException
    with the status and the url, a body that does not parse gives
    WowApiOauthException with the content and the url.  The
    RequestException of the session and the decoding error of the body
    never leave the exchange. *)
Theorem exchange_wraps_failures w region s :
  let url := oauth_url (_client_id s) (_client_secret s) region in
  let run := _get_client_credentials w region s in
  match session_get_at w (count_get (trace s)) (oauth_request s region) with
  | ConnFailure msg => fst run = Raise (WowApiOauthException (MsgExc msg))
  | Resp rsp =>
      (ok rsp = false ->
       fst run = Raise (WowApiOauthException
                          (MsgOauthInvalidResponse (status_code rsp) url)))
      /\ (ok rsp = true -> body_json rsp = None ->
          fst run = Raise (WowApiOauthException
                             (MsgOauthInvalidJson (content rsp) url)))
  end
  /\ (forall e, fst run = Raise e -> is_transport_error e = false).
Proof.
  intros url run. subst url run. split.
  - rewrite get_client_credentials_run. unfold exchange_outcome.
    destruct (session_get_at w _ _) as [msg|rsp]; [reflexivity|].
    split.
    + intros ->. reflexivity.
    + intros -> ->. reflexivity.
  - intros e He. apply get_client_credentials_raises in He.
    destruct e; try reflexivity; discriminate.
Qed.

Lemma exchange_wraps_failures_witness :
  fst (_get_client_credentials world_not_found "us" client_with_old_token)
  = Raise (WowApiOauthException
             (MsgOauthInvalidResponse 404
                "https://us.battle.net/oauth/token?grant_type=client_credentials&client_id=id&client_secret=secret")).
Proof.
  refine (proj1 (proj1 (exchange_wraps_failures world_not_found "us"
                          client_with_old_token)) _).
  reflexivity.
Defined.

Lemma final_outcome_raises url r e :
  final_outcome url r = Raise e -> is_request_error e = true.
Proof.
  destruct r as [msg|rsp]; cbn; [intros [= <-]; reflexivity|].
  destruct (ok rsp); [|intros [= <-]; reflexivity].
  destruct (body_json rsp); [discriminate|intros [= <-]; reflexivity].
Qed.

Lemma handle_request_raises w fuel : forall url region params s e,
  fst (_handle_request w fuel url region params s) = Raise e ->
  is_request_error e || exchange_error e = true.
Proof.
  induction fuel as [|fuel IH]; intros url region params s e; [discriminate|].
  rewrite handle_request_step.
  destruct (is_401 _).
  - unfold bind.
    pose proof (get_client_credentials_raises w region
                  (log (EvGet (resource_request url params)
                          (session_get_at w (count_get (trace s))
                             (resource_request url params))) s)) as Hcred.
    destruct (_get_client_credentials w region _) as [[[]|x|] s1]; cbn [fst] in *.
    + apply IH.
    + intros [= <-]. rewrite (Hcred x eq_refl). apply orb_true_r.
    + discriminate.
  - cbn [fst]. intros H. now rewrite (final_outcome_raises _ _ _ H).
Qed.

Lemma check_token_raises w region s e :
  fst (check_token w region s) = Raise e -> exchange_error e = true.
Proof.
  rewrite check_token_run.
  destruct (_access_tokens s !! region); [|apply get_client_credentials_raises].
  cbv zeta. destruct (_ <=? _); [apply get_client_credentials_raises|discriminate].
Qed.

Lemma get_resource_raises w fuel resource region args filters s e :
  fst (get_resource w fuel resource region args filters s) = Raise e ->
  is_request_error e || exchange_error e || is_index_error e = true.
Proof.
  destruct (py_format resource args) as [x|path] eqn:Hfmt.
  - unfold get_resource, bind. rewrite Hfmt. cbn. intros [= <-].
    rewrite (py_format_error _ _ _ Hfmt). reflexivity.
  - rewrite (get_resource_run _ _ _ _ _ _ _ _ Hfmt).
    pose proof (check_token_raises w region s) as Hchk.
    pose proof (check_token_ret w region s) as Hret.
    destruct (check_token w region s) as [[[]|x|] s1]; cbn [fst snd] in *.
    + destruct (Hret eq_refl) as (rec & ->). intros H.
      now rewrite (handle_request_raises _ _ _ _ _ _ _ H).
    + intros [= <-]. rewrite (Hchk x eq_refl). rewrite orb_true_r. reflexivity.
    + discriminate.
Qed.

Lemma call_get_resource_raises w fuel resource region args filters s e :
  fst (call_get_resource w fuel resource region args filters s) = Raise e ->
  is_transport_error e = false.
Proof.
  unfold call_get_resource. destruct (filters !! "resource").
  - intros [= <-]. reflexivity.
  - intros H. apply get_resource_raises in H.
    destruct e; try reflexivity; discriminate.
Qed.

(** X3.  Whatever the operation, it never ends with the RequestException
    of the session or with the decoding error of a body: the exchange and
    the executor catch both and raise the exceptions of the client in
    their place. *)
Theorem operations_wrap_transport_errors w fuel o s e :
  raised w fuel o s = Some e -> is_transport_error e = false.
Proof.
  assert (Hof : forall A (r : outcome A),
            match r with Raise x => Some x | _ => None end = Some e -> r = Raise e).
  { intros A [a|x|]; try discriminate. now intros [= ->]. }
  assert (Hcls : is_request_error e || exchange_error e || is_index_error e = true ->
                 is_transport_error e = false).
  { destruct e; try reflexivity; discriminate. }
  destruct o; cbn [raised]; intros H; apply Hof in H.
  - apply Hcls. rewrite (get_client_credentials_raises _ _ _ _ H).
    now rewrite orb_true_r.
  - apply Hcls. now rewrite (handle_request_raises _ _ _ _ _ _ _ H).
  - unfold get_data_resource, bind, get_state in H.
    apply Hcls. now rewrite (handle_request_raises _ _ _ _ _ _ _ H).
  - apply Hcls. now apply get_resource_raises in H.
  - now apply call_get_resource_raises in H.
Qed.

Lemma operations_wrap_transport_errors_witness :
  is_transport_error (WowApiException (MsgExc "connection refused")) = false.
Proof.
  apply (operations_wrap_transport_errors world_unreachable 1
           (Call_get_data_resource item_url "us") client_with_old_token).
  reflexivity.
Defined.

(** ** A reply that is not a 401 *)

(** X4.  When the reply to the request is not a 401, the executor is done
    after that one dispatch: the client only gains the event in its trace
    (the token cache is untouched), the call returns [j] exactly when the
    reply has a status that counts as success and a body that parses to
    [j], and any exception is the request error. *)
Theorem handle_request_single_attempt w fuel url region params s :
  let q := resource_request url params in
  let r := session_get_at w (count_get (trace s)) q in
  let run := _handle_request w (S fuel) url region params s in
  is_401 r = false ->
  snd run = log (EvGet q r) s
  /\ (forall j, fst run = Ret j <->
                exists rsp, r = Resp rsp /\ ok rsp = true /\ body_json rsp = Some j)
  /\ (forall e, fst run = Raise e -> is_request_error e = true)
  /\ fst run <> OutOfFuel.
Proof.
  intros q r run H401. subst run. rewrite handle_request_step. fold q r.
  rewrite H401. cbn [fst snd]. split; [reflexivity|].
  split; [|split].
  - intros j. split.
    + destruct r as [msg|rsp]; cbn; [discriminate|].
      destruct (ok rsp) eqn:Hok; [|discriminate].
      destruct (body_json rsp) as [j'|] eqn:Hbody; [|discriminate].
      intros [= ->]. exists rsp. auto.
    + intros (rsp & -> & Hok & Hbody). cbn. now rewrite Hok, Hbody.
  - apply final_outcome_raises.
  - destruct r as [msg|rsp]; cbn; [discriminate|].
    destruct (ok rsp); [|discriminate]. destruct (body_json rsp); discriminate.
Qed.

Lemma handle_request_single_attempt_witness :
  snd (_handle_request world_unreachable 1 item_url "us" old_params
         client_with_old_token)
  = log (EvGet (resource_request item_url old_params)
           (ConnFailure "connection refused")) client_with_old_token.
Proof.
  apply (handle_request_single_attempt world_unreachable 0 item_url "us" old_params
           client_with_old_token).
  reflexivity.
Defined.

(** X5.  The status decides as follows.  From 400 to 599, 401 apart, the
    call raises the request error that carries the url and the status.
    Any other status counts as success, 3xx and 1xx included: the parsed
    body is returned, and a body that does not parse gives the request
    error that carries the content and the url.  A failure of the
    connection gives the request error with the text of the exception. *)
Theorem handle_request_by_status w fuel url region params s :
  let q := resource_request url params in
  let run := _handle_request w (S fuel) url region params s in
  match session_get_at w (count_get (trace s)) q with
  | ConnFailure msg => fst run = Raise (WowApiException (MsgExc msg))
  | Resp rsp =>
      (400 <= status_code rsp < 600 -> status_code rsp <> 401 ->
       fst run = Raise (WowApiException (MsgInvalidResponse url (status_code rsp))))
      /\ (status_code rsp < 400 \/ 600 <= status_code rsp ->
          fst run = match body_json rsp with
                    | Some j => Ret j
                    | None => Raise (WowApiException
                                       (MsgInvalidJson (content rsp) url))
                    end)
  end.
Proof.
  intros q run. subst run. rewrite handle_request_step. fold q.
  destruct (session_get_at w (count_get (trace s)) q) as [msg|rsp];
    [reflexivity|].
  cbn [is_401]. split.
  - intros Hrange Hne.
    destruct (Z.eqb_spec (status_code rsp) 401); [contradiction|].
    cbn [fst final_outcome]. unfold ok.
    destruct (Z.leb_spec 400 (status_code rsp)); [|lia].
    destruct (Z.ltb_spec (status_code rsp) 600); [|lia]. reflexivity.
  - intros Hrange.
    destruct (Z.eqb_spec (status_code rsp) 401); [lia|].
    cbn [fst final_outcome]. unfold ok.
    destruct (Z.leb_spec 400 (status_code rsp));
      destruct (Z.ltb_spec (status_code rsp) 600); try lia; reflexivity.
Qed.

Lemma handle_request_by_status_witness :
  fst (_handle_request world_not_found 1 item_url "us" old_params
         client_with_old_token)
  = Raise (WowApiException (MsgInvalidResponse item_url 404)).
Proof.
  refine (proj1 (handle_request_by_status world_not_found 0 item_url "us"
                   old_params client_with_old_token) _ _).
  - vm_compute. split; [discriminate | reflexivity].
  - discriminate.
Defined.

(** ** What an operation leaves alone *)

Lemma evolves_credentials s s' new :
  evolves s s' new ->
  _client_id s' = _client_id s /\ _client_secret s' = _client_secret s.
Proof. intros (Hid & Hsec & _). auto. Qed.

Lemma get_client_credentials_frame w region s region' :
  region' <> region ->
  _access_tokens (snd (_get_client_credentials w region s)) !! region'
  = _access_tokens s !! region'.
Proof.
  intros Hne. rewrite get_client_credentials_run.
  destruct (exchange_outcome _ _ _) as [e|rec]; cbn; [reflexivity|].
  now rewrite lookup_insert_ne.
Qed.

Lemma handle_request_frame w fuel : forall url region params s region',
  region' <> region ->
  _access_tokens (snd (_handle_request w fuel url region params s)) !! region'
  = _access_tokens s !! region'.
Proof.
  induction fuel as [|fuel IH]; intros url region params s region' Hne;
    [reflexivity|].
  rewrite handle_request_step.
  destruct (is_401 _); [|reflexivity].
  unfold bind.
  pose proof (get_client_credentials_frame w region
                (log (EvGet (resource_request url params)
                        (session_get_at w (count_get (trace s))
                           (resource_request url params))) s) region' Hne) as Hcred.
  destruct (_get_client_credentials w region _) as [[[]|e|] s1];
    cbn [snd] in *; [|exact Hcred..].
  rewrite (IH _ _ _ _ _ Hne). exact Hcred.
Qed.

Lemma check_token_frame w region s region' :
  region' <> region ->
  _access_tokens (snd (check_token w region s)) !! region'
  = _access_tokens s !! region'.
Proof.
  intros Hne. rewrite check_token_run.
  destruct (_access_tokens s !! region);
    [|now apply get_client_credentials_frame].
  cbv zeta. destruct (_ <=? _); [|reflexivity].
  now rewrite get_client_credentials_frame.
Qed.

Lemma get_resource_frame w fuel resource region args filters s region' :
  region' <> region ->
  _access_tokens (snd (get_resource w fuel resource region args filters s)) !! region'
  = _access_tokens s !! region'.
Proof.
  intros Hne.
  destruct (py_format resource args) as [x|path] eqn:Hfmt.
  - unfold get_resource, bind. rewrite Hfmt. reflexivity.
  - rewrite (get_resource_run _ _ _ _ _ _ _ _ Hfmt).
    pose proof (check_token_frame w region s region' Hne) as Hchk.
    destruct (check_token w region s) as [[[]|x|] s1]; cbn [snd] in *;
      [|exact Hchk..].
    destruct (_access_tokens s1 !! region); [|exact Hchk].
    now rewrite handle_request_frame.
Qed.

(** X6.  An operation for one region leaves the token records of all the
    other regions as they were, and never changes the client id and
    secret. *)
Theorem operation_frame w fuel o s region' :
  region' <> region_of o ->
  _access_tokens (exec w fuel o s) !! region' = _access_tokens s !! region'
  /\ _client_id (exec w fuel o s) = _client_id s
  /\ _client_secret (exec w fuel o s) = _client_secret s.
Proof.
  intros Hne. split.
  - destruct o; cbn [exec region_of] in *.
    + now apply get_client_credentials_frame.
    + now apply handle_request_frame.
    + unfold get_data_resource, bind, get_state. now apply handle_request_frame.
    + now apply get_resource_frame.
    + unfold get_item, call_get_resource.
      destruct (filters !! "resource"); [reflexivity|].
      now apply get_resource_frame.
  - destruct (exec_evolves w fuel o s) as (new & Hev).
    exact (evolves_credentials _ _ _ Hev).
Qed.

Lemma operation_frame_witness :
  let s' := exec world_401_then_200 2 (Call_get_data_resource item_url "eu")
              client_with_old_token in
  _access_tokens s' !! "us" = _access_tokens client_with_old_token !! "us"
  /\ _client_id s' = "id" /\ _client_secret s' = "secret".
Proof.
  apply (operation_frame world_401_then_200 2 (Call_get_data_resource item_url "eu")
           client_with_old_token "us").
  discriminate.
Defined.

(** ** Tokens after a call *)

Lemma evolves_keeps s s' new region :
  evolves s s' new ->
  is_Some (_access_tokens s !! region) -> is_Some (_access_tokens s' !! region).
Proof.
  intros (_ & _ & _ & Htok) Hsome.
  destruct (Htok region) as [-> | (rec & -> & _)]; eauto.
Qed.

(** X7.  A call of [get_resource] that returns a payload leaves a token
    record for its region in the cache: the entry is created on the first
    request to a region. *)
Theorem get_resource_returns_with_token w fuel resource region args filters s j :
  fst (get_resource w fuel resource region args filters s) = Ret j ->
  is_Some (_access_tokens (snd (get_resource w fuel resource region args filters s))
             !! region).
Proof.
  destruct (py_format resource args) as [x|path] eqn:Hfmt.
  - unfold get_resource, bind. rewrite Hfmt. discriminate.
  - rewrite (get_resource_run _ _ _ _ _ _ _ _ Hfmt).
    pose proof (check_token_ret w region s) as Hret.
    destruct (check_token w region s) as [[[]|x|] s1]; cbn [fst snd] in *;
      try discriminate.
    destruct (Hret eq_refl) as (rec & Hrec). rewrite Hrec. intros _.
    destruct (handle_request_evolves w fuel (resource_url region path) region
                (<["access_token" := token rec]> filters) s1) as (new & Hev).
    eapply evolves_keeps; [exact Hev|]. rewrite Hrec. eauto.
Qed.

Lemma get_resource_returns_with_token_witness :
  is_Some (_access_tokens
             (snd (get_resource world_401_then_200 2 resource_item "us" [PInt 1234] ∅
                     client_with_old_token)) !! "us").
Proof.
  apply (get_resource_returns_with_token world_401_then_200 2 resource_item "us"
           [PInt 1234] ∅ client_with_old_token item_payload).
  vm_compute. reflexivity.
Defined.

(** ** Retries without end *)

Lemma handle_request_persistent_401 w url region params oq :
  (forall n, is_401 (session_get_at w n (resource_request url params)) = true) ->
  (forall n t, is_success (exchange_outcome (req_url oq) t (session_get_at w n oq))
               = true) ->
  forall fuel s, oauth_request s region = oq ->
  exists new s',
    _handle_request w fuel url region params s = (OutOfFuel, s')
    /\ trace s' = trace s ++ new
    /\ exchanges new = fuel /\ dispatches new = fuel.
Proof.
  intros H401 Hgrant. induction fuel as [|fuel IH]; intros s Hoq.
  - exists [], s. cbn. rewrite app_nil_r. auto.
  - rewrite handle_request_step, H401. unfold bind at 1.
    rewrite get_client_credentials_run.
    rewrite oauth_request_log. subst oq.
    specialize (Hgrant (count_get (trace (log (EvGet (resource_request url params)
                   (session_get_at w (count_get (trace s))
                      (resource_request url params))) s)))
                  (utcnow_at w (count_now (trace (log (EvGet (resource_request url params)
                   (session_get_at w (count_get (trace s))
                      (resource_request url params))) s))))).
    destruct (exchange_outcome _ _ _) as [e|rec]; [discriminate|].
    match goal with |- context [_handle_request _ _ _ _ _ ?s2] =>
      destruct (IH s2) as (new & s' & Hrun & Htr & Hex & Hdi); [reflexivity|] end.
    rewrite Hrun. rewrite trace_store_token, !trace_log in Htr.
    eexists _, s'. split; [reflexivity|].
    split; [rewrite Htr, <- !app_assoc; reflexivity|].
    rewrite !exchanges_app, !dispatches_app, Hex, Hdi. split; reflexivity.
Qed.

(** X8.  When the server answers the request with 401 every time and
    grants every exchange, the executor never comes to an end by itself:
    whatever the depth allowed, it is used up, with one dispatch and one
    exchange per level.  (The request is sent again unchanged each time,
    so a server that rejects its token rejects it again.) *)
Theorem persistent_401_never_returns w url region params s :
  (forall n, is_401 (session_get_at w n (resource_request url params)) = true) ->
  (forall n t, is_success
                 (exchange_outcome (req_url (oauth_request s region)) t
                    (session_get_at w n (oauth_request s region))) = true) ->
  forall fuel,
    let run := _handle_request w fuel url region params s in
    fst run = OutOfFuel
    /\ exchanges (since s (snd run)) = fuel
    /\ dispatches (since s (snd run)) = fuel.
Proof.
  intros H401 Hgrant fuel run. subst run.
  destruct (handle_request_persistent_401 w url region params _ H401 Hgrant fuel s
              eq_refl) as (new & s' & -> & Htr & Hex & Hdi).
  cbn [fst snd]. rewrite (since_app _ _ _ Htr). auto.
Qed.

Lemma persistent_401_never_returns_witness :
  let run := _handle_request world_always_401 7 item_url "us" old_params
               client_with_old_token in
  fst run = OutOfFuel
  /\ exchanges (since client_with_old_token (snd run)) = 7%nat
  /\ dispatches (since client_with_old_token (snd run)) = 7%nat.
Proof.
  refine (persistent_401_never_returns world_always_401 item_url "us" old_params
            client_with_old_token _ _ 7%nat).
  - intros n. reflexivity.
  - intros n t. reflexivity.
Defined.

(** ** The order of events in the executor *)

Lemma count_now_app a b : count_now (a ++ b) = (count_now a + count_now b)%nat.
Proof. unfold count_now. now rewrite List.filter_app, length_app. Qed.

Lemma count_get_app a b : count_get (a ++ b) = (count_get a + count_get b)%nat.
Proof. unfold count_get. now rewrite List.filter_app, length_app. Qed.

Lemma handle_request_balance w fuel : forall url region params s,
  exists new,
    trace (snd (_handle_request w fuel url region params s)) = trace s ++ new
    /\ count_now new = exchanges new
    /\ count_get new = (exchanges new + dispatches new)%nat
    /\ (exchanges new <= dispatches new <= S (exchanges new))%nat
    /\ (forall j, fst (_handle_request w fuel url region params s) = Ret j ->
                  dispatches new = S (exchanges new)).
Proof.
  induction fuel as [|fuel IH]; intros url region params s.
  - exists []. cbn. rewrite app_nil_r. repeat split; try lia. discriminate.
  - rewrite handle_request_step.
    set (q := resource_request url params).
    set (r := session_get_at w (count_get (trace s)) q).
    destruct (is_401 r).
    + unfold bind.
      destruct (get_client_credentials_trace w region (log (EvGet q r) s))
        as (Htr1 & _).
      destruct (_get_client_credentials w region (log (EvGet q r) s))
        as [[[]|e|] s1]; cbn [fst snd] in *.
      * destruct (IH url region params s1) as (new & Htr & Hnow & Hget & Hle & Hret).
        eexists. split.
        { rewrite Htr, Htr1, trace_log, <- !app_assoc. reflexivity. }
        rewrite !count_now_app, !count_get_app, !exchanges_app, !dispatches_app.
        cbn. repeat split; try lia. intros j Hj. specialize (Hret j Hj). lia.
      * eexists. split.
        { rewrite Htr1, trace_log, <- !app_assoc. reflexivity. }
        cbn. repeat split; try lia. discriminate.
      * eexists. split.
        { rewrite Htr1, trace_log, <- !app_assoc. reflexivity. }
        cbn. repeat split; try lia. discriminate.
    + exists [EvGet q r]. cbn. repeat split; lia.
Qed.

(** X9.  In every call of the executor the clock is read once per exchange
    and never otherwise, every [get] is an exchange or a dispatch of the
    request, each exchange follows a dispatch of its own (so there are
    never more exchanges than dispatches, and at most one dispatch more),
    and a call that returns a payload made exactly one dispatch more than
    exchanges. *)
Theorem handle_request_alternates w fuel url region params s :
  let run := _handle_request w fuel url region params s in
  let new := since s (snd run) in
  count_now new = exchanges new
  /\ count_get new = (exchanges new + dispatches new)%nat
  /\ (exchanges new <= dispatches new <= S (exchanges new))%nat
  /\ (forall j, fst run = Ret j -> dispatches new = S (exchanges new)).
Proof.
  intros run new. subst run new.
  destruct (handle_request_balance w fuel url region params s)
    as (new & Htr & H).
  rewrite (since_app _ _ _ Htr). exact H.
Qed.

(** ** Whole calls *)

(** X10.  [get_resource] with a token that expires more than thirty
    seconds after the clock reading, and a reply that is not a 401: the
    call reads the clock, dispatches the request with the cached token and
    is done.  No exchange takes place and the cache is untouched. *)
Theorem get_resource_fresh_token w fuel resource region args filters s path rec :
  py_format resource args = inr path ->
  _access_tokens s !! region = Some rec ->
  let now := utcnow_at w (count_now (trace s)) in
  thirty_seconds < expiration rec - now ->
  let url := resource_url region path in
  let q := resource_request url (<["access_token" := token rec]> filters) in
  let r := session_get_at w (count_get (trace s)) q in
  is_401 r = false ->
  get_resource w (S fuel) resource region args filters s
  = (final_outcome url r, log (EvGet q r) (log (EvNow now) s)).
Proof.
  intros Hfmt Hrec now Hfar url q r H401.
  rewrite (get_resource_run _ _ _ _ _ _ _ _ Hfmt), check_token_run, Hrec.
  cbv zeta. fold now.
  destruct (Z.leb_spec (expiration rec - thirty_seconds) now); [lia|].
  cbn [_access_tokens log]. rewrite Hrec.
  rewrite handle_request_step. rewrite trace_log, count_get_snoc_now.
  fold url q r. now rewrite H401.
Qed.

Lemma get_resource_fresh_token_witness :
  get_resource world_not_found 1 resource_item "us" [PInt 1234] ∅
    client_with_old_token
  = (Raise (WowApiException (MsgInvalidResponse item_url 404)),
     log (EvGet (resource_request item_url (<["access_token" := JStr "OLD"]> ∅))
            (reply_text 404 "Not Found"))
       (log (EvNow 50) client_with_old_token)).
Proof.
  apply (get_resource_fresh_token world_not_found 0 resource_item "us" [PInt 1234] ∅
           client_with_old_token "wow/item/1234"
           {| token := JStr "OLD";
              expiration := 1000000000 * microseconds_per_second |});
    reflexivity.
Defined.

(** X11.  The first request to a region: the clock is read, the exchange
    is made, its record is stored, and the resource request goes out with
    the token just obtained.  With a reply that is not a 401 the call ends
    there. *)
Theorem get_resource_first_use w fuel resource region args filters s path rec :
  py_format resource args = inr path ->
  _access_tokens s !! region = None ->
  let t0 := utcnow_at w (count_now (trace s)) in
  let oq := oauth_request s region in
  let ro := session_get_at w (count_get (trace s)) oq in
  exchange_outcome (req_url oq) t0 ro = inr rec ->
  let url := resource_url region path in
  let q := resource_request url (<["access_token" := token rec]> filters) in
  let r := session_get_at w (S (count_get (trace s))) q in
  is_401 r = false ->
  get_resource w (S fuel) resource region args filters s
  = (final_outcome url r,
     log (EvGet q r) (store_token region rec (log (EvGet oq ro) (log (EvNow t0) s)))).
Proof.
  intros Hfmt Hnone t0 oq ro Hout url q r H401.
  rewrite (get_resource_run _ _ _ _ _ _ _ _ Hfmt), check_token_run, Hnone.
  rewrite get_client_credentials_run. fold oq t0 ro. rewrite Hout.
  cbn [_access_tokens store_token]. rewrite lookup_insert_eq.
  rewrite handle_request_step.
  rewrite trace_store_token, !trace_log, count_get_snoc_get, count_get_snoc_now.
  fold url q r. now rewrite H401.
Qed.

Lemma get_resource_first_use_witness :
  fst (get_resource (scripted [50] [reply_token "T1" 100; reply_item]) 1
         resource_item "us" [PInt 1234] ∅ (WowApi_init "id" "secret"))
  = Ret item_payload.
Proof.
  exact (f_equal fst
    (get_resource_first_use (scripted [50] [reply_token "T1" 100; reply_item]) 0
       resource_item "us" [PInt 1234] ∅ (WowApi_init "id" "secret")
       "wow/item/1234"
       {| token := JStr "T1"; expiration := 50 + 100 * microseconds_per_second |}
       eq_refl eq_refl eq_refl eq_refl)).
Defined.



(** X13.  One 401, an exchange that succeeds and a reply that is not a
    401: the record of the exchange is stored for the region and the very
    same request is dispatched a second time, whose reply ends the call. *)
Theorem handle_request_refresh_once w fuel url region params s rec :
  let q := resource_request url params in
  let r1 := session_get_at w (count_get (trace s)) q in
  let t0 := utcnow_at w (count_now (trace s)) in
  let oq := oauth_request s region in
  let ro := session_get_at w (S (count_get (trace s))) oq in
  let r2 := session_get_at w (S (S (count_get (trace s)))) q in
  is_401 r1 = true ->
  exchange_outcome (req_url oq) t0 ro = inr rec ->
  is_401 r2 = false ->
  _handle_request w (S (S fuel)) url region params s
  = (final_outcome url r2,
     log (EvGet q r2)
       (store_token region rec
          (log (EvGet oq ro) (log (EvNow t0) (log (EvGet q r1) s))))).
Proof.
  intros q r1 t0 oq ro r2 H1 Hout H2.
  rewrite handle_request_step. fold q r1. rewrite H1.
  unfold bind at 1. rewrite get_client_credentials_run.
  rewrite oauth_request_log, trace_log, count_now_snoc_get, count_get_snoc_get.
  fold oq t0 ro. rewrite Hout.
  rewrite handle_request_step.
  rewrite trace_store_token, !trace_log, count_get_snoc_get, count_get_snoc_now,
    count_get_snoc_get.
  fold q r2. now rewrite H2.
Qed.

Lemma handle_request_refresh_once_witness :
  fst (_handle_request world_401_then_200 2 item_url "us" old_params
         client_with_old_token)
  = Ret item_payload.
Proof.
  exact (f_equal fst
    (handle_request_refresh_once world_401_then_200 0 item_url "us" old_params
       client_with_old_token
       {| token := JStr "NEW"; expiration := 50 + 100 * microseconds_per_second |}
       eq_refl eq_refl eq_refl)).
Defined.

(** ** Query parameters *)

(** X14.  An [access_token] among the filters of the caller has no
    effect: [get_resource] replaces it by the cached token, so the call
    does exactly what it does without that filter. *)
Theorem get_resource_overrides_access_token w fuel resource region args filters s :
  get_resource w fuel resource region args filters s
  = get_resource w fuel resource region args (delete "access_token" filters) s.
Proof.
  unfold get_resource, bind.
  destruct (lift (py_format resource args) s) as [[path|e|] s0]; try reflexivity.
  destruct (check_token w region s0) as [[[]|e|] s1]; try reflexivity.
  unfold get_state. destruct (_access_tokens s1 !! region); [|reflexivity].
  now rewrite insert_delete_eq.
Qed.

(** ** Endpoint methods, continued *)

Lemma get_resource_first_request w fuel resource region args filters s path :
  py_format resource args = inr path ->
  fst (check_token w region s) = Ret tt ->
  let s1 := snd (check_token w region s) in
  exists rec rest,
    _access_tokens s1 !! region = Some rec
    /\ let q := resource_request (resource_url region path)
                  (<["access_token" := token rec]> filters) in
       since s1 (snd (get_resource w (S fuel) resource region args filters s))
       = EvGet q (session_get_at w (count_get (trace s1)) q) :: rest.
Proof.
  intros Hfmt Hret s1. subst s1.
  destruct (check_token_ret w region s Hret) as (rec & Hrec).
  rewrite (get_resource_run _ _ _ _ _ _ _ _ Hfmt).
  destruct (check_token w region s) as [[[]|e|] s1]; cbn [fst snd] in *;
    try discriminate.
  rewrite Hrec.
  destruct (handle_request_head w fuel (resource_url region path) region
              (<["access_token" := token rec]> filters) s1) as (rest & Htr & _).
  exists rec, rest. split; [reflexivity|]. cbv zeta.
  now rewrite (since_app _ _ _ Htr).
Qed.

(** X15.  [get_character_profile], called with filters none of which is
    named resource, puts the realm and the character name into the path
    in that order: once the token check has returned, the
    request goes to https://{data host}/wow/character/{realm}/{name} with
    the filters of the caller and the cached token. *)
Theorem get_character_profile_request w fuel region realm name filters s :
  filters !! "resource" = None ->
  fst (check_token w region s) = Ret tt ->
  let s1 := snd (check_token w region s) in
  exists rec rest,
    _access_tokens s1 !! region = Some rec
    /\ let q := resource_request
                  ("https://" +:+ resource_host region +:+ "/wow/character/"
                   +:+ py_str realm +:+ "/" +:+ py_str name)
                  (<["access_token" := token rec]> filters) in
       since s1 (snd (get_character_profile w (S fuel) region realm name filters s))
       = EvGet q (session_get_at w (count_get (trace s1)) q) :: rest.
Proof.
  intros Hfree Hret. unfold get_character_profile.
  rewrite (call_get_resource_free _ _ _ _ _ _ _ Hfree).
  apply (get_resource_first_request w fuel _ region _ filters s
           ("wow/character/" +:+ py_str realm +:+ "/" +:+ py_str name)); [|exact Hret].
  cbn. now rewrite string_app_nil_r.
Qed.

Lemma get_character_profile_request_witness :
  exists rest,
    since (log (EvNow 50) client_with_old_token)
      (snd (get_character_profile world_not_found 1 "us" (PStr "khadgar")
              (PStr "patchwerk") ∅ client_with_old_token))
    = EvGet (resource_request
               "https://us.api.blizzard.com/wow/character/khadgar/patchwerk"
               (<["access_token" := JStr "OLD"]> ∅))
        (reply_text 404 "Not Found") :: rest.
Proof.
  destruct (get_character_profile_request world_not_found 0 "us" (PStr "khadgar")
              (PStr "patchwerk") ∅ client_with_old_token (lookup_empty _) eq_refl)
    as (rec & rest & Hrec & Hsince).
  exists rest.
  change (_access_tokens (snd (check_token world_not_found "us"
                                 client_with_old_token)) !! "us")
    with (Some {| token := JStr "OLD";
                  expiration := 1000000000 * microseconds_per_second |}) in Hrec.
  injection Hrec as <-. exact Hsince.
Defined.

(** X16.  [get_achievement_category], called with filters none of which
    is named resource, adds the namespace to the filters and uses a template that starts with a slash: the url has two slashes
    after the host, and the parameters are the filters of the caller, the
    namespace and the cached token. *)
Theorem get_achievement_category_request w fuel region namespace id filters s :
  filters !! "resource" = None ->
  fst (check_token w region s) = Ret tt ->
  let s1 := snd (check_token w region s) in
  exists rec rest,
    _access_tokens s1 !! region = Some rec
    /\ let q := resource_request
                  ("https://" +:+ resource_host region
                   +:+ "//data/wow/achievement-category/" +:+ py_str id)
                  (<["access_token" := token rec]>
                     (<["namespace" := namespace]> filters)) in
       since s1 (snd (get_achievement_category w (S fuel) region namespace id
                        filters s))
       = EvGet q (session_get_at w (count_get (trace s1)) q) :: rest.
Proof.
  intros Hfree Hret. unfold get_achievement_category.
  rewrite call_get_resource_free by (now rewrite lookup_insert_ne).
  apply (get_resource_first_request w fuel _ region _ _ s
           ("/data/wow/achievement-category/" +:+ py_str id)); [|exact Hret].
  cbn. now rewrite string_app_nil_r.
Qed.

Lemma get_achievement_category_request_witness :
  exists rest,
    since (log (EvNow 50) client_with_old_token)
      (snd (get_achievement_category world_not_found 1 "us" (JStr "static-us")
              (PInt 81) ∅ client_with_old_token))
    = EvGet (resource_request
               "https://us.api.blizzard.com//data/wow/achievement-category/81"
               (<["access_token" := JStr "OLD"]>
                  (<["namespace" := JStr "static-us"]> ∅)))
        (reply_text 404 "Not Found") :: rest.
Proof.
  destruct (get_achievement_category_request world_not_found 0 "us"
              (JStr "static-us") (PInt 81) ∅ client_with_old_token
              (lookup_empty _) eq_refl)
    as (rec & rest & Hrec & Hsince).
  exists rest.
  change (_access_tokens (snd (check_token world_not_found "us"
                                 client_with_old_token)) !! "us")
    with (Some {| token := JStr "OLD";
                  expiration := 1000000000 * microseconds_per_second |}) in Hrec.
  injection Hrec as <-. exact Hsince.
Defined.

(** X17.  [get_character_mythic_keystone_profile_season], called with
    filters none of which is named resource, takes the
    namespace as its fourth argument but builds the path from the realm,
    the character and the season, in that order; the namespace goes to
    the parameters. *)
Theorem get_character_mythic_keystone_profile_season_request
    w fuel region realm name namespace season filters s :
  filters !! "resource" = None ->
  fst (check_token w region s) = Ret tt ->
  let s1 := snd (check_token w region s) in
  exists rec rest,
    _access_tokens s1 !! region = Some rec
    /\ let q := resource_request
                  ("https://" +:+ resource_host region
                   +:+ "/profile/wow/character/" +:+ py_str realm +:+ "/"
                   +:+ py_str name +:+ "/mythic-keystone-profile/season/"
                   +:+ py_str season)
                  (<["access_token" := token rec]>
                     (<["namespace" := namespace]> filters)) in
       since s1 (snd (get_character_mythic_keystone_profile_season w (S fuel)
                        region realm name namespace season filters s))
       = EvGet q (session_get_at w (count_get (trace s1)) q) :: rest.
Proof.
  intros Hfree Hret. unfold get_character_mythic_keystone_profile_season.
  rewrite call_get_resource_free by (now rewrite lookup_insert_ne).
  apply (get_resource_first_request w fuel _ region _ _ s
           ("profile/wow/character/" +:+ py_str realm +:+ "/" +:+ py_str name
            +:+ "/mythic-keystone-profile/season/" +:+ py_str season));
    [|exact Hret].
  cbn. now rewrite string_app_nil_r.
Qed.

Lemma get_character_mythic_keystone_profile_season_request_witness :
  exists rest,
    since (log (EvNow 50) client_with_old_token)
      (snd (get_character_mythic_keystone_profile_season world_not_found 1 "us"
              (PStr "khadgar") (PStr "patchwerk") (JStr "profile-us") (PInt 3) ∅
              client_with_old_token))
    = EvGet (resource_request
               "https://us.api.blizzard.com/profile/wow/character/khadgar/patchwerk/mythic-keystone-profile/season/3"
               (<["access_token" := JStr "OLD"]>
                  (<["namespace" := JStr "profile-us"]> ∅)))
        (reply_text 404 "Not Found") :: rest.
Proof.
  destruct (get_character_mythic_keystone_profile_season_request world_not_found 0
              "us" (PStr "khadgar") (PStr "patchwerk") (JStr "profile-us") (PInt 3)
              ∅ client_with_old_token (lookup_empty _) eq_refl)
    as (rec & rest & Hrec & Hsince).
  exists rest.
  change (_access_tokens (snd (check_token world_not_found "us"
                                 client_with_old_token)) !! "us")
    with (Some {| token := JStr "OLD";
                  expiration := 1000000000 * microseconds_per_second |}) in Hrec.
  injection Hrec as <-. exact Hsince.
Defined.

Lemma get_resource_fitting_raises w fuel resource region args filters s e :
  fields_fit resource (length args) = true ->
  fst (get_resource w fuel resource region args filters s) = Raise e ->
  is_index_error e = false.
Proof.
  intros Hfit Hraise. rewrite <- py_format_fits in Hfit.
  destruct (py_format resource args) as [x|path] eqn:Hfmt; [discriminate|].
  rewrite (get_resource_run _ _ _ _ _ _ _ _ Hfmt) in Hraise.
  pose proof (check_token_raises w region s) as Hchk.
  pose proof (check_token_ret w region s) as Hret.
  assert (Hno : is_request_error e || exchange_error e = true ->
                is_index_error e = false) by (destruct e; cbn; congruence).
  apply Hno.
  destruct (check_token w region s) as [[[]|x|] s1]; cbn [fst snd] in *.
  - destruct (Hret eq_refl) as (rec & Hrec). rewrite Hrec in Hraise.
    now apply handle_request_raises in Hraise.
  - injection Hraise as <-. rewrite (Hchk x eq_refl). apply orb_true_r.
  - discriminate.
Qed.

Lemma call_get_resource_fitting_raises w fuel resource region args filters s e :
  fields_fit resource (length args) = true ->
  fst (call_get_resource w fuel resource region args filters s) = Raise e ->
  is_index_error e = false.
Proof.
  intros Hfit. unfold call_get_resource. destruct (filters !! "resource").
  - intros [= <-]. reflexivity.
  - now apply get_resource_fitting_raises.
Qed.

(** X18.  The endpoint methods pass as many arguments as their templates
    have fields: none of them ends with the IndexError of the path
    template, whatever the region, the arguments and the replies. *)
Theorem endpoints_never_raise_IndexError w fuel region a b c namespace filters s e :
  (fst (get_oauth_profile w fuel region s) = Raise e
   \/ fst (get_bosses w fuel region filters s) = Raise e
   \/ fst (get_item w fuel region a filters s) = Raise e
   \/ fst (get_character_profile w fuel region a b filters s) = Raise e
   \/ fst (get_achievement_category w fuel region namespace a filters s) = Raise e
   \/ fst (get_guild_data w fuel region namespace a b filters s) = Raise e
   \/ fst (get_item_data w fuel region namespace a filters s) = Raise e
   \/ fst (get_character_mythic_keystone_profile_season w fuel region a b namespace
             c filters s) = Raise e) ->
  is_index_error e = false.
Proof.
  intros H.
  repeat (destruct H as [H | H]);
    first [ eapply call_get_resource_fitting_raises; [|exact H]; reflexivity
          | eapply get_resource_fitting_raises; [|exact H]; reflexivity ].
Qed.

Lemma endpoints_never_raise_IndexError_witness :
  is_index_error (WowApiException (MsgInvalidResponse
                    "https://us.api.blizzard.com/data/wow/guild/khadgar/avalon" 404))
  = false.
Proof.
  apply (endpoints_never_raise_IndexError world_not_found 1 "us" (PStr "khadgar")
           (PStr "avalon") (PInt 0) (JStr "profile-us") ∅ client_with_old_token).
  right. right. right. right. right. left. reflexivity.
Defined.

(** ** Failing refreshes *)



(** X20.  When the exchange that follows a 401 fails, the executor ends
    with the exception of the exchange: the request is not dispatched
    again, and the token cache is as it was.  A resource call can thus end
    with the authentication error. *)
Theorem handle_request_failed_refresh w fuel url region params s e :
  let q := resource_request url params in
  let r := session_get_at w (count_get (trace s)) q in
  let t0 := utcnow_at w (count_now (trace s)) in
  let oq := oauth_request s region in
  let ro := session_get_at w (S (count_get (trace s))) oq in
  is_401 r = true ->
  exchange_outcome (req_url oq) t0 ro = inl e ->
  _handle_request w (S fuel) url region params s
  = (Raise e, log (EvGet oq ro) (log (EvNow t0) (log (EvGet q r) s))).
Proof.
  intros q r t0 oq ro H401 Hout.
  rewrite handle_request_step. fold q r. rewrite H401.
  unfold bind. rewrite get_client_credentials_run.
  rewrite oauth_request_log, trace_log, count_now_snoc_get, count_get_snoc_get.
  fold oq t0 ro. now rewrite Hout.
Qed.

Lemma handle_request_failed_refresh_witness :
  fst (_handle_request (scripted [50] [reply_401; reply_401]) 3 item_url "us"
         old_params client_with_old_token)
  = Raise (WowApiOauthException
             (MsgOauthInvalidResponse 401
                "https://us.battle.net/oauth/token?grant_type=client_credentials&client_id=id&client_secret=secret")).
Proof.
  exact (f_equal fst
    (handle_request_failed_refresh (scripted [50] [reply_401; reply_401]) 2
       item_url "us" old_params client_with_old_token _ eq_refl eq_refl)).
Defined.

(** ** Two calls in a row *)

(** X21.  The token obtained by the first request to a region serves the
    next one: when the second call reads the clock more than thirty
    seconds before the expiration just stored, it makes no exchange and
    dispatches its request with that token. *)
Theorem token_reused_by_next_call
    w fuel resource region args filters s path rec resource2 args2 filters2 path2 :
  py_format resource args = inr path ->
  _access_tokens s !! region = None ->
  let t0 := utcnow_at w (count_now (trace s)) in
  let oq := oauth_request s region in
  exchange_outcome (req_url oq) t0 (session_get_at w (count_get (trace s)) oq)
    = inr rec ->
  is_401 (session_get_at w (S (count_get (trace s)))
            (resource_request (resource_url region path)
               (<["access_token" := token rec]> filters))) = false ->
  let s' := snd (get_resource w (S fuel) resource region args filters s) in
  py_format resource2 args2 = inr path2 ->
  let now2 := utcnow_at w (S (count_now (trace s))) in
  thirty_seconds < expiration rec - now2 ->
  let url2 := resource_url region path2 in
  let q2 := resource_request url2 (<["access_token" := token rec]> filters2) in
  let r2 := session_get_at w (S (S (count_get (trace s)))) q2 in
  is_401 r2 = false ->
  get_resource w (S fuel) resource2 region args2 filters2 s'
  = (final_outcome url2 r2, log (EvGet q2 r2) (log (EvNow now2) s')).
Proof.
  intros Hfmt Hnone t0 oq Hout H401 s' Hfmt2 now2 Hfar url2 q2 r2 H401'.
  assert (Hs' : s' = log (EvGet (resource_request (resource_url region path)
                                   (<["access_token" := token rec]> filters))
                            (session_get_at w (S (count_get (trace s)))
                               (resource_request (resource_url region path)
                                  (<["access_token" := token rec]> filters))))
                       (store_token region rec
                          (log (EvGet oq (session_get_at w (count_get (trace s)) oq))
                             (log (EvNow t0) s)))).
  { subst s'.
    rewrite (get_resource_run _ _ _ _ _ _ _ _ Hfmt), check_token_run, Hnone.
    rewrite get_client_credentials_run. fold oq t0. rewrite Hout.
    cbn [_access_tokens store_token]. rewrite lookup_insert_eq.
    rewrite handle_request_step.
    rewrite trace_store_token, !trace_log, count_get_snoc_get, count_get_snoc_now.
    now rewrite H401. }
  assert (Hnow : count_now (trace s') = S (count_now (trace s))).
  { rewrite Hs', trace_log, trace_store_token, !trace_log.
    now rewrite !count_now_snoc_get, count_now_snoc_now. }
  assert (Hget : count_get (trace s') = S (S (count_get (trace s)))).
  { rewrite Hs', trace_log, trace_store_token, !trace_log.
    now rewrite count_get_snoc_get, count_get_snoc_get, count_get_snoc_now. }
  assert (Hrec : _access_tokens s' !! region = Some rec).
  { rewrite Hs'. cbn [_access_tokens log store_token]. apply lookup_insert_eq. }
  clearbody s'.
  rewrite (get_resource_run _ _ _ _ _ _ _ _ Hfmt2), check_token_run, Hrec.
  cbv zeta. rewrite Hnow. fold now2.
  destruct (Z.leb_spec (expiration rec - thirty_seconds) now2); [lia|].
  cbn [_access_tokens log]. rewrite Hrec.
  rewrite handle_request_step. rewrite trace_log, count_get_snoc_now, Hget.
  fold url2 q2 r2. now rewrite H401'.
Qed.

Lemma token_reused_by_next_call_witness :
  let w := scripted [50; 60] [reply_token "T1" 100; reply_item; reply_item] in
  let s' := snd (get_resource w 1 resource_item "us" [PInt 1234] ∅
                   (WowApi_init "id" "secret")) in
  fst (get_resource w 1 [Lit "wow/boss/"] "us" [] ∅ s') = Ret item_payload.
Proof.
  refine (f_equal fst
    (token_reused_by_next_call
       (scripted [50; 60] [reply_token "T1" 100; reply_item; reply_item]) 0
       resource_item "us" [PInt 1234] ∅ (WowApi_init "id" "secret")
       "wow/item/1234"
       {| token := JStr "T1"; expiration := 50 + 100 * microseconds_per_second |}
       [Lit "wow/boss/"] [] ∅ "wow/boss/"
       eq_refl eq_refl eq_refl eq_refl eq_refl _ eq_refl)).
  vm_compute. reflexivity.
Defined.

(** ** Filters that collide with a parameter *)

(** X22.  An endpoint method called with a filter named resource never
    reaches [get_resource]: passing the filters on gives its parameter
    [resource] two values, and the call ends with a TypeError before the
    clock is read or anything is sent; the client is left exactly as it
    was. *)
Theorem endpoint_filter_named_resource
    w fuel region a b c namespace filters s :
  is_Some (filters !! "resource") ->
  get_bosses w fuel region filters s = (Raise TypeError, s)
  /\ get_item w fuel region a filters s = (Raise TypeError, s)
  /\ get_character_profile w fuel region a b filters s = (Raise TypeError, s)
  /\ get_achievement_category w fuel region namespace a filters s
     = (Raise TypeError, s)
  /\ get_guild_data w fuel region namespace a b filters s = (Raise TypeError, s)
  /\ get_item_data w fuel region namespace a filters s = (Raise TypeError, s)
  /\ get_character_mythic_keystone_profile_season w fuel region a b namespace c
       filters s = (Raise TypeError, s).
Proof.
  intros Hsome.
  assert (Hns : is_Some (<["namespace" := namespace]> filters !! "resource"))
    by (now rewrite lookup_insert_ne).
  repeat split; now apply call_get_resource_collision.
Qed.

Lemma endpoint_filter_named_resource_witness :
  get_item world_always_401 3 "us" (PInt 1234) {[ "resource" := JStr "x" ]}
    client_with_old_token
  = (Raise TypeError, client_with_old_token).
Proof.
  refine (proj1 (proj2 (endpoint_filter_named_resource world_always_401 3 "us"
                          (PInt 1234) (PInt 0) (PInt 0) JNull
                          {[ "resource" := JStr "x" ]} client_with_old_token _))).
  eexists. reflexivity.
Defined.
